(** * EDI segment diff and element classifier

    A shallow embedding of the diffing and highlighting logic of the
    [ComparisonView] and [AnimatedEDIDiff] React components, together with
    the properties their specification states about them.

    JavaScript values are modelled as follows.
    - A string is a [string]: a sequence of code units, here the code units
      below 256 (X12 interchanges use the basic and extended character sets).
    - An array is a [list]; [a[i]] is [a !! i], where [None] stands for
      [undefined] (index out of range).
    - An optional field [f?: T] is an [option T].
    - Reading a property of [undefined] throws a [TypeError]: code that reads
      properties lives in the [result] monad. *)

From Stdlib Require Import ZArith Ascii String.
From stdpp Require Import base tactics option list strings.


(** ** JavaScript runtime *)

Module JS.

(** The outcome of evaluating code that may throw. *)
Inductive result (A : Type) : Type :=
  | Ok (a : A)
  | TypeError.
Arguments Ok {A} a.
Arguments TypeError {A}.

#[global] Instance result_ret : MRet result := fun A a => Ok a.
#[global] Instance result_bind : MBind result := fun A B f m =>
  match m with
  | Ok a => f a
  | TypeError => TypeError
  end.

(** [o.f] for an [o] that may be [undefined]. *)
Definition prop {O A : Type} (f : O → A) (o : option O) : result A :=
  match o with
  | Some x => Ok (f x)
  | None => TypeError
  end.

(** [o?.f]: optional chaining yields [undefined] on [undefined]. *)
Definition optProp {O A : Type} (f : O → A) (o : option O) : option A :=
  match o with
  | Some x => Some (f x)
  | None => None
  end.

(** Truthiness of a value that is an object or [undefined]. *)
Definition truthy {O : Type} (o : option O) : bool :=
  match o with
  | Some _ => true
  | None => false
  end.

(** Truthiness of a string: every string but the empty one. *)
Definition truthyString (s : string) : bool :=
  match s with
  | EmptyString => false
  | String _ _ => true
  end.

(** Truthiness of a value that is a boolean or [undefined]. *)
Definition truthyBool (v : option bool) : bool :=
  match v with
  | Some b => b
  | None => false
  end.

(** [a || b]: the first operand when it is truthy, else the second. *)
Definition or (a b : option bool) : option bool :=
  if truthyBool a then a else b.

(** [for (let i = start; i < start + count; i++) st = body(i, st)]. *)
Fixpoint forLoop {St : Type} (body : nat → St → result St)
    (i count : nat) (st : St) : result St :=
  match count with
  | O => Ok st
  | S k => st' ← body i st; forLoop body (S i) k st'
  end.

(** [a.push(x)] *)
Definition push {A : Type} (a : list A) (x : A) : list A := a ++ [x].

(** [a.forEach(f)] for an [f] that updates the state [st]. *)
Definition forEach {A St : Type} (f : A → St → St) (a : list A) (st : St) : St :=
  fold_left (fun st x => f x st) a st.

(** *** Strings *)

Definition between (lo hi : nat) (c : ascii) : bool :=
  (lo <=? nat_of_ascii c)%nat && (nat_of_ascii c <=? hi)%nat.

(** [A-Z] and the upper-case letters of the Latin-1 supplement
    (U+00C0 to U+00DE without the multiplication sign U+00D7). *)
Definition isUpperCase (c : ascii) : bool :=
  between 65 90 c
  || (between 192 222 c && negb (nat_of_ascii c =? 215)%nat).

Definition toLowerChar (c : ascii) : ascii :=
  if isUpperCase c then ascii_of_nat (nat_of_ascii c + 32) else c.

(** [s.toLowerCase()] *)
Fixpoint toLowerCase (s : string) : string :=
  match s with
  | EmptyString => EmptyString
  | String c s' => String (toLowerChar c) (toLowerCase s')
  end.

(** [s.startsWith(t)] *)
Fixpoint startsWith (s t : string) {struct t} : bool :=
  match t, s with
  | EmptyString, _ => true
  | String _ _, EmptyString => false
  | String b t', String a s' => Ascii.eqb a b && startsWith s' t'
  end.

(** [s.includes(t)] *)
Fixpoint includes (s t : string) : bool :=
  startsWith s t ||
  match s with
  | EmptyString => false
  | String _ s' => includes s' t
  end.

(** [s.split(re)] for a regular expression [re] that is one character
    class [sep]: a string with [n] separators gives [n + 1] pieces. *)
Fixpoint split (sep : ascii → bool) (s : string) : list string :=
  match s with
  | EmptyString => [EmptyString]
  | String c s' =>
      if sep c then EmptyString :: split sep s'
      else match split sep s' with
           | piece :: pieces => String c piece :: pieces
           | [] => [String c EmptyString]
           end
  end.

(** A string between double quotes, as a template literal spells it out. *)
Definition quoted (s : string) : string :=
  String (ascii_of_nat 34) s +:+ String (ascii_of_nat 34) EmptyString.

(** [a.join('')] *)
Definition join (a : list string) : string :=
  fold_right String.append EmptyString a.

(** *** Regular expressions

    The fragment the components use: character classes, concatenation,
    alternation and repetition. A pattern [/^r$/] (no flags) matches a
    string when [r] matches all of it. *)

Inductive regex : Type :=
  | Never
  | Empty
  | Class (p : ascii → bool)
  | Seq (r1 r2 : regex)
  | Alt (r1 r2 : regex)
  | Star (r : regex).

(** [\d] *)
Definition digit : ascii → bool := between 48 57.
(** [\.] *)
Definition dot : ascii → bool := Ascii.eqb ".".
(** [[A-Z0-9]] *)
Definition upperOrDigit (c : ascii) : bool := between 65 90 c || between 48 57 c.
(** [[\*~]] *)
Definition starOrTilde (c : ascii) : bool := Ascii.eqb "*" c || Ascii.eqb "~" c.

(** [r+] *)
Definition Plus (r : regex) : regex := Seq r (Star r).
(** [r?] *)
Definition Opt (r : regex) : regex := Alt r Empty.
(** [r{n}] *)
Fixpoint Times (n : nat) (r : regex) : regex :=
  match n with
  | O => Empty
  | S k => Seq r (Times k r)
  end.

Fixpoint nullable (r : regex) : bool :=
  match r with
  | Never => false
  | Empty => true
  | Class _ => false
  | Seq r1 r2 => nullable r1 && nullable r2
  | Alt r1 r2 => nullable r1 || nullable r2
  | Star _ => true
  end.

(** The derivative of [r] by the character [c]. *)
Fixpoint deriv (c : ascii) (r : regex) : regex :=
  match r with
  | Never => Never
  | Empty => Never
  | Class p => if p c then Empty else Never
  | Seq r1 r2 =>
      if nullable r1 then Alt (Seq (deriv c r1) r2) (deriv c r2)
      else Seq (deriv c r1) r2
  | Alt r1 r2 => Alt (deriv c r1) (deriv c r2)
  | Star r1 => Seq (deriv c r1) (Star r1)
  end.

(** [/^r$/.test(s)] *)
Fixpoint test (r : regex) (s : string) : bool :=
  match s with
  | EmptyString => nullable r
  | String c s' => test (deriv c r) s'
  end.

End JS.

Import JS.

(** ** Data model *)

(** [EDISegment], as the components use it: [tag], [raw], [lineNumber]. *)
Record EDISegment : Type := {
  tag : string;
  raw : string;
  lineNumber : Z
}.

(** What [parseEDIContent] returns, as the components use it. *)
Record ParsedEDI : Type := {
  parsedType : string;
  segments : list EDISegment
}.

(** ['834' | '820' | 'unknown'] *)
Inductive FileType : Type := T834 | T820 | TUnknown.

(** [EDIFile] of [pages/Index.tsx]; [uploadedAt] as a time stamp. *)
Record EDIFile : Type := {
  id : string;
  name : string;
  content : string;
  type : FileType;
  uploadedAt : Z
}.

(** ['added' | 'removed' | 'modified' | 'unchanged'] *)
Inductive DiffType : Type := Added | Removed | Modified | Unchanged.

Definition DiffType_eqb (a b : DiffType) : bool :=
  match a, b with
  | Added, Added | Removed, Removed | Modified, Modified | Unchanged, Unchanged => true
  | _, _ => false
  end.

(** ** ComparisonView *)

Module ComparisonView.

Record ComparisonLine : Type := {
  leftSegment : option EDISegment;
  rightSegment : option EDISegment;
  diffType : DiffType;
  leftLineNumber : option Z;
  rightLineNumber : option Z
}.

Record DiffStats : Type := {
  added : nat;
  removed : nat;
  modified : nat;
  unchanged : nat
}.

(** The body of the [for] loop of [comparisonData], at index [i]. *)
Definition comparisonStep (leftSegments rightSegments : list EDISegment)
    (i : nat) (comparison : list ComparisonLine) : result (list ComparisonLine) :=
  let leftSegment := leftSegments !! i in
  let rightSegment := rightSegments !! i in
  diffType ←
    (if negb (truthy leftSegment) && truthy rightSegment then
       mret Added
     else if truthy leftSegment && negb (truthy rightSegment) then
       mret Removed
     else if truthy leftSegment && truthy rightSegment then
       leftRaw ← prop raw leftSegment;
       rightRaw ← prop raw rightSegment;
       if negb (String.eqb leftRaw rightRaw) then mret Modified
       else mret Unchanged
     else mret Unchanged);
  mret (push comparison {|
    leftSegment := leftSegment;
    rightSegment := rightSegment;
    diffType := diffType;
    leftLineNumber := optProp lineNumber leftSegment;
    rightLineNumber := optProp lineNumber rightSegment
  |}).

(** The loop of [comparisonData] over two segment sequences. *)
Definition compare (leftSegments rightSegments : list EDISegment)
    : result (list ComparisonLine) :=
  let maxLength := Nat.max (length leftSegments) (length rightSegments) in
  forLoop (comparisonStep leftSegments rightSegments) 0 maxLength [].

(** [stats[line.diffType]++] *)
Definition increment (d : DiffType) (stats : DiffStats) : DiffStats :=
  match d with
  | Added => {| added := S (added stats); removed := removed stats;
                modified := modified stats; unchanged := unchanged stats |}
  | Removed => {| added := added stats; removed := S (removed stats);
                  modified := modified stats; unchanged := unchanged stats |}
  | Modified => {| added := added stats; removed := removed stats;
                   modified := S (modified stats); unchanged := unchanged stats |}
  | Unchanged => {| added := added stats; removed := removed stats;
                    modified := modified stats; unchanged := S (unchanged stats) |}
  end.

(** [diffStats], as a function of [comparisonData]. *)
Definition diffStats (comparisonData : list ComparisonLine) : DiffStats :=
  let stats := {| added := 0; removed := 0; modified := 0; unchanged := 0 |} in
  forEach (fun line stats => increment (diffType line) stats) comparisonData stats.

(** The callback of the search filter. *)
Definition matchesSearch (searchTerm : string) (line : ComparisonLine) : option bool :=
  let hit (field : EDISegment → string) (segment : option EDISegment) :=
    optProp (fun s => includes (toLowerCase (field s)) (toLowerCase searchTerm)) segment in
  JS.or (JS.or (JS.or (hit raw (leftSegment line))
                      (hit raw (rightSegment line)))
               (hit tag (leftSegment line)))
        (hit tag (rightSegment line)).

(** [filteredComparison], as a function of what it depends on. *)
Definition filteredComparison (comparisonData : list ComparisonLine)
    (searchTerm : string) (showOnlyDifferences : bool) : list ComparisonLine :=
  let filtered := comparisonData in
  let filtered :=
    if showOnlyDifferences then
      List.filter (fun line => negb (DiffType_eqb (diffType line) Unchanged)) filtered
    else filtered in
  let filtered :=
    if truthyString searchTerm then
      List.filter (fun line => truthyBool (matchesSearch searchTerm line)) filtered
    else filtered in
  filtered.

(** [getElementClass] *)
Definition getElementClass (element : string) : string :=
  if test (Times 8 (Class digit)) element || test (Times 6 (Class digit)) element then
    "edi-date"
  else if test (Seq (Plus (Class digit))
                    (Opt (Seq (Class dot) (Plus (Class digit))))) element then
    "edi-number"
  else if (String.length element <=? 3)%nat && test (Plus (Class upperOrDigit)) element then
    "edi-qualifier"
  else "edi-element".

(** The pieces [highlightSegmentHTML] maps the elements to. *)
Definition highlightElement (index : nat) (element : string) : string :=
  if (index =? 0)%nat then
    "<span class=" +:+ quoted "edi-segment" +:+ ">" +:+ element +:+ "</span>"
  else
    let cssClass := getElementClass element in
    "<span class=" +:+ quoted "edi-separator" +:+ ">*</span><span class="
      +:+ quoted cssClass +:+ ">" +:+ element +:+ "</span>".

(** [highlightSegmentHTML] *)
Definition highlightSegmentHTML (segment : EDISegment) : string :=
  let elements := split starOrTilde (raw segment) in
  join (imap highlightElement elements).

(** [getDiffClass] *)
Definition getDiffClass (diffType : DiffType) : string :=
  match diffType with
  | Added => "diff-added"
  | Removed => "diff-removed"
  | Modified => "diff-modified"
  | _ => EmptyString
  end.

(** The class of the dot that the statistics header renders next to the
    count of each diff type ([diffStats.added], [diffStats.removed],
    [diffStats.modified], [diffStats.unchanged]). *)
Definition statsDotClass (diffType : DiffType) : string :=
  match diffType with
  | Added => "w-2 h-2 bg-green-500 rounded"
  | Removed => "w-2 h-2 bg-red-500 rounded"
  | Modified => "w-2 h-2 bg-yellow-500 rounded"
  | Unchanged => "w-2 h-2 bg-gray-500 rounded"
  end.

Section Component.

(** [parseEDIContent] of [utils/ediParser] *)
Variable parseEDIContent : string → ParsedEDI.

(** [comparisonData] *)
Definition comparisonData (leftFile rightFile : option EDIFile)
    : result (list ComparisonLine) :=
  if negb (truthy leftFile) || negb (truthy rightFile) then mret []
  else
    leftContent ← prop content leftFile;
    rightContent ← prop content rightFile;
    let leftData := parseEDIContent leftContent in
    let rightData := parseEDIContent rightContent in
    compare (segments leftData) (segments rightData).

(** The state of the component: the two [useState] cells. *)
Record State : Type := {
  searchTerm : string;
  showOnlyDifferences : bool
}.

(** [useState("")] and [useState(false)] *)
Definition initialState : State :=
  {| searchTerm := EmptyString; showOnlyDifferences := false |}.

(** What the user can do to the state: type into the search box
    ([setSearchTerm(e.target.value)]) or press the differences button
    ([setShowOnlyDifferences(!showOnlyDifferences)]). *)
Inductive Event : Type :=
  | SearchInput (value : string)
  | DifferencesClick.

Definition handle (st : State) (e : Event) : State :=
  match e with
  | SearchInput value =>
      {| searchTerm := value; showOnlyDifferences := showOnlyDifferences st |}
  | DifferencesClick =>
      {| searchTerm := searchTerm st;
         showOnlyDifferences := negb (showOnlyDifferences st) |}
  end.

(** The three memoised values of one render. *)
Record Memo : Type := {
  memoComparisonData : list ComparisonLine;
  memoFilteredComparison : list ComparisonLine;
  memoDiffStats : DiffStats
}.

(** One render of the component with props [leftFile], [rightFile] in
    state [st]. *)
Definition render (leftFile rightFile : option EDIFile) (st : State) : result Memo :=
  comparisonData ← comparisonData leftFile rightFile;
  let filteredComparison :=
    filteredComparison comparisonData (searchTerm st) (showOnlyDifferences st) in
  let diffStats := diffStats comparisonData in
  mret {| memoComparisonData := comparisonData;
          memoFilteredComparison := filteredComparison;
          memoDiffStats := diffStats |}.

End Component.

(** One side of a row of the dual pane: the highlighted segment, or the
    placeholder [— No content —] when the segment is absent
    ([line.leftSegment ? ... : ...]). *)
Inductive Cell : Type :=
  | NoContent
  | Highlighted (html : string).

Definition leftCell (line : ComparisonLine) : Cell :=
  if truthy (leftSegment line) then
    match leftSegment line with
    | Some segment => Highlighted (highlightSegmentHTML segment)
    | None => NoContent
    end
  else NoContent.

Definition rightCell (line : ComparisonLine) : Cell :=
  if truthy (rightSegment line) then
    match rightSegment line with
    | Some segment => Highlighted (highlightSegmentHTML segment)
    | None => NoContent
    end
  else NoContent.

End ComparisonView.

(** ** AnimatedEDIDiff *)

Module AnimatedEDIDiff.

Record DiffSegment : Type := {
  type : DiffType;
  leftTag : option string;
  rightTag : option string;
  leftContent : option string;
  rightContent : option string;
  index : nat
}.

Record Stats : Type := {
  total : nat;
  added : nat;
  removed : nat;
  modified : nat;
  unchanged : nat
}.

(** The body of the [for] loop of the diff effect, at index [i]. *)
Definition diffStep (leftSegments rightSegments : list EDISegment)
    (i : nat) (diffs : list DiffSegment) : result (list DiffSegment) :=
  let leftSeg := leftSegments !! i in
  let rightSeg := rightSegments !! i in
  if negb (truthy leftSeg) && truthy rightSeg then
    rightTag ← prop tag rightSeg;
    rightContent ← prop raw rightSeg;
    mret (push diffs {|
      type := Added;
      leftTag := None; rightTag := Some rightTag;
      leftContent := None; rightContent := Some rightContent;
      index := i |})
  else if truthy leftSeg && negb (truthy rightSeg) then
    leftTag ← prop tag leftSeg;
    leftContent ← prop raw leftSeg;
    mret (push diffs {|
      type := Removed;
      leftTag := Some leftTag; rightTag := None;
      leftContent := Some leftContent; rightContent := None;
      index := i |})
  else if truthy leftSeg && truthy rightSeg then
    leftRaw ← prop raw leftSeg;
    rightRaw ← prop raw rightSeg;
    leftTag ← prop tag leftSeg;
    rightTag ← prop tag rightSeg;
    if String.eqb leftRaw rightRaw then
      mret (push diffs {|
        type := Unchanged;
        leftTag := Some leftTag; rightTag := Some rightTag;
        leftContent := Some leftRaw; rightContent := Some rightRaw;
        index := i |})
    else
      mret (push diffs {|
        type := Modified;
        leftTag := Some leftTag; rightTag := Some rightTag;
        leftContent := Some leftRaw; rightContent := Some rightRaw;
        index := i |})
  else mret diffs.

(** The loop of the diff effect over two segment sequences. *)
Definition diff (leftSegments rightSegments : list EDISegment)
    : result (list DiffSegment) :=
  let maxLength := Nat.max (length leftSegments) (length rightSegments) in
  forLoop (diffStep leftSegments rightSegments) 0 maxLength [].

(** [stats], as a function of [diffSegments]. *)
Definition stats (diffSegments : list DiffSegment) : Stats :=
  {| total := length diffSegments;
     added := length (List.filter (fun d => DiffType_eqb (type d) Added) diffSegments);
     removed := length (List.filter (fun d => DiffType_eqb (type d) Removed) diffSegments);
     modified := length (List.filter (fun d => DiffType_eqb (type d) Modified) diffSegments);
     unchanged := length (List.filter (fun d => DiffType_eqb (type d) Unchanged) diffSegments) |}.

(** [getDiffColor] *)
Definition getDiffColor (type : DiffType) : string :=
  match type with
  | Added => "bg-blue-50 dark:bg-blue-950 border-blue-200 dark:border-blue-800"
  | Removed => "bg-red-50 dark:bg-red-950 border-red-200 dark:border-red-800"
  | Modified => "bg-amber-50 dark:bg-amber-950 border-amber-200 dark:border-amber-800"
  | _ => "bg-green-50 dark:bg-green-950 border-green-200 dark:border-green-800"
  end.

Section Component.

(** [parseEDIContent] of [utils/ediParser] *)
Variable parseEDIContent : string → ParsedEDI.

(** The value the diff effect passes to [setDiffSegments]. *)
Definition diffSegments (leftFile rightFile : option EDIFile)
    : result (list DiffSegment) :=
  if negb (truthy leftFile) || negb (truthy rightFile) then mret []
  else
    leftContent ← prop content leftFile;
    rightContent ← prop content rightFile;
    let leftParsed := parseEDIContent leftContent in
    let rightParsed := parseEDIContent rightContent in
    diff (segments leftParsed) (segments rightParsed).

End Component.

(** Truthiness of a value that is a string or [undefined]. *)
Definition truthyText (v : option string) : bool :=
  match v with
  | Some s => truthyString s
  | None => false
  end.

(** One side of a rendered diff card: the placeholder [(not present)], or
    the optional tag prefix ([{diff.leftTag}*]), and the content with its
    class. *)
Inductive Side : Type :=
  | NotPresent
  | Shown (tagPrefix : option string) (className : string) (content : string).

(** [{diff.leftTag && (<span>{diff.leftTag}*</span>)}] *)
Definition tagPrefixOf (tag : option string) : option string :=
  match tag with
  | Some t => if truthyString t then Some (t +:+ "*") else None
  | None => None
  end.

(** The left column of a card: [diff.leftContent ? ... : (not present)]. *)
Definition leftSide (diff : DiffSegment) : Side :=
  if truthyText (leftContent diff) then
    match leftContent diff with
    | Some content =>
        Shown (tagPrefixOf (leftTag diff))
          (if DiffType_eqb (type diff) Removed then "line-through opacity-60"
           else EmptyString)
          content
    | None => NotPresent
    end
  else NotPresent.

(** The right column of a card: [diff.rightContent ? ... : (not present)]. *)
Definition rightSide (diff : DiffSegment) : Side :=
  if truthyText (rightContent diff) then
    match rightContent diff with
    | Some content =>
        Shown (tagPrefixOf (rightTag diff))
          (if DiffType_eqb (type diff) Added then "font-semibold" else EmptyString)
          content
    | None => NotPresent
    end
  else NotPresent.

End AnimatedEDIDiff.

(** ** Index *)

Module Index.

(** [{left?: EDIFile, right?: EDIFile}] *)
Record SelectedFiles : Type := {
  left : option EDIFile;
  right : option EDIFile
}.

(** ['left' | 'right'] *)
Inductive Position : Type := Left | Right.

(** The two [useState] cells of the page. *)
Record State : Type := {
  files : list EDIFile;
  selectedFiles : SelectedFiles
}.

(** [useState([])] and [useState({})] *)
Definition initialState : State :=
  {| files := []; selectedFiles := {| left := None; right := None |} |}.

(** [handleFileUpload] *)
Definition handleFileUpload (newFiles : list EDIFile) (st : State) : State :=
  {| files := files st ++ newFiles; selectedFiles := selectedFiles st |}.

(** [handleFileSelect] *)
Definition handleFileSelect (file : EDIFile) (position : Position) (st : State) : State :=
  let prev := selectedFiles st in
  {| files := files st;
     selectedFiles :=
       match position with
       | Left => {| left := Some file; right := right prev |}
       | Right => {| left := left prev; right := Some file |}
       end |}.

(** [o?.id === fileId] *)
Definition hasId (fileId : string) (o : option EDIFile) : bool :=
  match optProp id o with
  | Some i => String.eqb i fileId
  | None => false
  end.

(** [handleFileRemove] *)
Definition handleFileRemove (fileId : string) (st : State) : State :=
  {| files := List.filter (fun f => negb (String.eqb (id f) fileId)) (files st);
     selectedFiles :=
       let updated := selectedFiles st in
       let updated :=
         if hasId fileId (left updated)
         then {| left := None; right := right updated |} else updated in
       let updated :=
         if hasId fileId (right updated)
         then {| left := left updated; right := None |} else updated in
       updated |}.

(** What the user can do on the page. *)
Inductive Event : Type :=
  | Upload (newFiles : list EDIFile)
  | Select (file : EDIFile) (position : Position)
  | Remove (fileId : string).

Definition handle (st : State) (e : Event) : State :=
  match e with
  | Upload newFiles => handleFileUpload newFiles st
  | Select file position => handleFileSelect file position st
  | Remove fileId => handleFileRemove fileId st
  end.

End Index.

(** ** Specification vocabulary *)

(** The line the diff engine is to emit for the two (possibly absent)
    segments of one position. *)
Definition lineOf (l r : option EDISegment) : ComparisonView.ComparisonLine :=
  {| ComparisonView.leftSegment := l;
     ComparisonView.rightSegment := r;
     ComparisonView.diffType :=
       match l, r with
       | None, Some _ => Added
       | Some _, None => Removed
       | Some a, Some b => if String.eqb (raw a) (raw b) then Unchanged else Modified
       | None, None => Unchanged
       end;
     ComparisonView.leftLineNumber := lineNumber <$> l;
     ComparisonView.rightLineNumber := lineNumber <$> r |}.

(** A [ComparisonLine] flattened into a [DiffSegment]: the same diff type,
    and the tag and raw text of each side that is present. *)
Definition flatten (i : nat) (line : ComparisonView.ComparisonLine)
    : AnimatedEDIDiff.DiffSegment :=
  {| AnimatedEDIDiff.type := ComparisonView.diffType line;
     AnimatedEDIDiff.leftTag := tag <$> ComparisonView.leftSegment line;
     AnimatedEDIDiff.rightTag := tag <$> ComparisonView.rightSegment line;
     AnimatedEDIDiff.leftContent := raw <$> ComparisonView.leftSegment line;
     AnimatedEDIDiff.rightContent := raw <$> ComparisonView.rightSegment line;
     AnimatedEDIDiff.index := i |}.

(** Presence of the two sides of a line, by diff type. *)
Definition sidesAgree (line : ComparisonView.ComparisonLine) : Prop :=
  match ComparisonView.diffType line with
  | Added | Removed =>
      (ComparisonView.leftSegment line = None ∧ is_Some (ComparisonView.rightSegment line))
      ∨ (is_Some (ComparisonView.leftSegment line) ∧ ComparisonView.rightSegment line = None)
  | Modified | Unchanged =>
      is_Some (ComparisonView.leftSegment line) ∧ is_Some (ComparisonView.rightSegment line)
  end.

Definition notBothAbsent (line : ComparisonView.ComparisonLine) : Prop :=
  ¬ (ComparisonView.leftSegment line = None ∧ ComparisonView.rightSegment line = None).

(** Splits a conjunction of equivalences between concrete diff types and
    presence conditions, and closes each direction. *)
Ltac split_cases :=
  repeat split; intros;
  repeat match goal with
         | H : _ ∧ _ |- _ => destruct H
         | H : ∃ _, _ |- _ => destruct H
         | H : is_Some None |- _ => destruct H
         | H : Some _ = Some _ |- _ => injection H as H; subst
         end;
  try discriminate; try congruence; eauto 6.

Definition sampleLeft : list EDISegment :=
  [ {| tag := "A"; raw := "A*1~"; lineNumber := 1 |};
    {| tag := "B"; raw := "B*2~"; lineNumber := 2 |} ].

Definition sampleRight : list EDISegment :=
  [ {| tag := "A"; raw := "A*1~"; lineNumber := 1 |};
    {| tag := "B"; raw := "B*3~"; lineNumber := 2 |};
    {| tag := "C"; raw := "C*4~"; lineNumber := 3 |} ].

Definition sumOfCounts (stats : ComparisonView.DiffStats) : nat :=
  ComparisonView.added stats + ComparisonView.removed stats
  + ComparisonView.modified stats + ComparisonView.unchanged stats.

(** [needle] occurs in [hay] when case is ignored. *)
Definition containsIgnoringCase (needle hay : string) : Prop :=
  ∃ before after, toLowerCase hay = before +:+ toLowerCase needle +:+ after.

(** The search string occurs, case ignored, in the raw text or the tag of
    a segment that is present on the left or on the right of the line. *)
Definition searchHit (searchTerm : string) (line : ComparisonView.ComparisonLine) : Prop :=
  ∃ segment,
    (ComparisonView.leftSegment line = Some segment
     ∨ ComparisonView.rightSegment line = Some segment)
    ∧ (containsIgnoringCase searchTerm (raw segment)
       ∨ containsIgnoringCase searchTerm (tag segment)).

(** A line passes both filters. *)
Definition passes (searchTerm : string) (showOnlyDifferences : bool)
    (line : ComparisonView.ComparisonLine) : Prop :=
  (showOnlyDifferences = true → ComparisonView.diffType line ≠ Unchanged)
  ∧ (searchTerm ≠ EmptyString → searchHit searchTerm line).

(** The predicate the two [filter] calls of [filteredComparison] amount
    to. *)
Definition kept (searchTerm : string) (showOnlyDifferences : bool)
    (line : ComparisonView.ComparisonLine) : bool :=
  (if showOnlyDifferences
   then negb (DiffType_eqb (ComparisonView.diffType line) Unchanged) else true)
  && (if truthyString searchTerm
      then truthyBool (ComparisonView.matchesSearch searchTerm line) else true).

Definition sampleComparison : list ComparisonView.ComparisonLine :=
  let a := {| tag := "A"; raw := "A*1~"; lineNumber := 1 |} in
  let b := {| tag := "B"; raw := "B*2~"; lineNumber := 2 |} in
  let b' := {| tag := "B"; raw := "B*3~"; lineNumber := 2 |} in
  let c := {| tag := "C"; raw := "C*4~"; lineNumber := 3 |} in
  let d := {| tag := "D"; raw := "D*5~"; lineNumber := 4 |} in
  [lineOf (Some a) (Some a); lineOf (Some b) (Some b');
   lineOf (Some c) (Some c); lineOf None (Some d)].

(** The strings a regular expression matches. *)
Inductive Matches : regex → string → Prop :=
  | MEmpty : Matches Empty EmptyString
  | MClass p c : p c = true → Matches (Class p) (String c EmptyString)
  | MSeq r1 r2 s1 s2 :
      Matches r1 s1 → Matches r2 s2 → Matches (Seq r1 r2) (s1 +:+ s2)
  | MAltL r1 r2 s : Matches r1 s → Matches (Alt r1 r2) s
  | MAltR r1 r2 s : Matches r2 s → Matches (Alt r1 r2) s
  | MStarNil r : Matches (Star r) EmptyString
  | MStarCons r s1 s2 :
      Matches r s1 → Matches (Star r) s2 → Matches (Star r) (s1 +:+ s2).

(** Every character of [s] is in the class [p]. *)
Fixpoint allChars (p : ascii → bool) (s : string) : bool :=
  match s with
  | EmptyString => true
  | String c s' => p c && allChars p s'
  end.

(** Rule 1: exactly eight or exactly six digits. *)
Definition dateRule (element : string) : Prop :=
  allChars digit element = true
  ∧ (String.length element = 8 ∨ String.length element = 6).

(** A non-empty run of digits. *)
Definition digits (s : string) : Prop :=
  s ≠ EmptyString ∧ allChars digit s = true.

(** Rule 2: digits, optionally followed by one [.] and digits. *)
Definition numberRule (element : string) : Prop :=
  ∃ whole,
    digits whole
    ∧ (element = whole ∨ ∃ fraction, digits fraction ∧ element = whole +:+ "." +:+ fraction).

(** Rule 3 as the specification words it: at most three characters, all
    of them upper-case letters or digits. *)
Definition qualifierRuleAsStated (element : string) : Prop :=
  String.length element ≤ 3 ∧ allChars upperOrDigit element = true.

(** Rule 3 as the code has it: one to three characters, all of them
    upper-case letters or digits. *)
Definition qualifierRule (element : string) : Prop :=
  1 ≤ String.length element ≤ 3 ∧ allChars upperOrDigit element = true.

(** What [highlightSegmentHTML] emits for an empty element that is not the
    first: a separator and an empty span of class [edi-element]. *)
Definition emptyElementHTML : string :=
  "<span class=" +:+ quoted "edi-separator" +:+ ">*</span><span class="
    +:+ quoted "edi-element" +:+ "></span>".

(** The colour words of the specification's vocabulary, by diff type. *)
Definition vocabulary (diffType : DiffType) : list string :=
  match diffType with
  | Added => ["green"; "blue"]
  | Removed => ["red"]
  | Modified => ["amber"; "yellow"]
  | Unchanged => ["neutral"; "gray"]
  end.

Definition colourWords : list string :=
  ["green"; "blue"; "red"; "amber"; "yellow"; "neutral"; "gray"].

(** The colour words a class string names. *)
Definition coloursNamed (className : string) : list string :=
  List.filter (includes className) colourWords.

(** A class string names a colour of the vocabulary of [diffType]. *)
Definition inVocabulary (diffType : DiffType) (className : string) : bool :=
  existsb (includes className) (vocabulary diffType).

(** A line with its two sides exchanged: an addition becomes a removal
    and a removal an addition. *)
Definition swapLine (line : ComparisonView.ComparisonLine) : ComparisonView.ComparisonLine :=
  {| ComparisonView.leftSegment := ComparisonView.rightSegment line;
     ComparisonView.rightSegment := ComparisonView.leftSegment line;
     ComparisonView.diffType :=
       match ComparisonView.diffType line with
       | Added => Removed
       | Removed => Added
       | Modified => Modified
       | Unchanged => Unchanged
       end;
     ComparisonView.leftLineNumber := ComparisonView.rightLineNumber line;
     ComparisonView.rightLineNumber := ComparisonView.leftLineNumber line |}.

(** The number of lines of a comparison that have the diff type [d]. *)
Definition countType (d : DiffType) (comparison : list ComparisonView.ComparisonLine) : nat :=
  length (List.filter (λ line, DiffType_eqb (ComparisonView.diffType line) d) comparison).

(** The fields of a [DiffSegment] fit its type. *)
Definition consistentDiff (d : AnimatedEDIDiff.DiffSegment) : Prop :=
  match AnimatedEDIDiff.type d with
  | Added =>
      AnimatedEDIDiff.leftTag d = None ∧ AnimatedEDIDiff.leftContent d = None
      ∧ is_Some (AnimatedEDIDiff.rightTag d) ∧ is_Some (AnimatedEDIDiff.rightContent d)
  | Removed =>
      is_Some (AnimatedEDIDiff.leftTag d) ∧ is_Some (AnimatedEDIDiff.leftContent d)
      ∧ AnimatedEDIDiff.rightTag d = None ∧ AnimatedEDIDiff.rightContent d = None
  | Modified =>
      is_Some (AnimatedEDIDiff.leftTag d) ∧ is_Some (AnimatedEDIDiff.rightTag d)
      ∧ ∃ l r, AnimatedEDIDiff.leftContent d = Some l
               ∧ AnimatedEDIDiff.rightContent d = Some r ∧ l ≠ r
  | Unchanged =>
      is_Some (AnimatedEDIDiff.leftTag d) ∧ is_Some (AnimatedEDIDiff.rightTag d)
      ∧ ∃ l r, AnimatedEDIDiff.leftContent d = Some l
               ∧ AnimatedEDIDiff.rightContent d = Some r ∧ l = r
  end.

(** The number of characters of [s] that are in the class [p]. *)
Fixpoint countChars (p : ascii → bool) (s : string) : nat :=
  match s with
  | EmptyString => 0
  | String c s' => (if p c then 1 else 0) + countChars p s'
  end.



(** Every selected file is one of the uploaded files. *)
Definition selectionInFiles (st : Index.State) : Prop :=
  ∀ f,
    Index.left (Index.selectedFiles st) = Some f
    ∨ Index.right (Index.selectedFiles st) = Some f →
    f ∈ Index.files st.

(** No uploaded or selected file has the id [fileId]. *)
Definition idGone (fileId : string) (st : Index.State) : Prop :=
  Forall (λ f, id f ≠ fileId) (Index.files st)
  ∧ (∀ f, Index.left (Index.selectedFiles st) = Some f → id f ≠ fileId)
  ∧ (∀ f, Index.right (Index.selectedFiles st) = Some f → id f ≠ fileId).

(** A parser that finds the same segments in every text. *)
Definition constantParser (segs : list EDISegment) (text : string) : ParsedEDI :=
  {| parsedType := "unknown"; segments := segs |}.

Definition sampleFile : EDIFile :=
  {| id := "f1"; name := "a.edi"; content := "A*1~B*2~"; type := TUnknown;
     uploadedAt := 0 |}.

Definition otherFile : EDIFile :=
  {| id := "f2"; name := "b.edi"; content := "A*1~B*3~C*4~"; type := TUnknown;
     uploadedAt := 1 |}.

(** The events the page offers: a file can be selected only from the list
    of uploaded files, which is what the sidebar is given. *)
Definition offered (st : Index.State) (e : Index.Event) : Prop :=
  match e with
  | Index.Select file _ => file ∈ Index.files st
  | _ => True
  end.

(** The states of the page that the offered events lead to. *)
Inductive reachable : Index.State → Prop :=
  | reachable_initial : reachable Index.initialState
  | reachable_step st e :
      reachable st → offered st e → reachable (Index.handle st e).

(** * Properties *)

(** ** The loops *)

Lemma bind_Ok {A B : Type} (a : A) (f : A → result B) : (Ok a ≫= f) = f a.
Proof. reflexivity. Qed.

(** A loop whose body pushes one element per index builds the list of
    these elements, in index order. *)
Lemma forLoop_push {A : Type} (body : nat → list A → result (list A)) (f : nat → A) :
  ∀ count i acc,
    (∀ j acc', i ≤ j < i + count → body j acc' = Ok (push acc' (f j))) →
    forLoop body i count acc = Ok (acc ++ (f <$> seq i count)).
Proof.
  induction count as [|k IH]; intros i acc Hbody; simpl.
  - by rewrite app_nil_r.
  - rewrite Hbody by lia. rewrite bind_Ok, IH.
    + unfold push. by rewrite <- app_assoc.
    + intros j acc' Hj. apply Hbody. lia.
Qed.

Lemma comparisonStep_push left right i comparison :
  ComparisonView.comparisonStep left right i comparison
  = Ok (push comparison (lineOf (left !! i) (right !! i))).
Proof.
  unfold ComparisonView.comparisonStep, lineOf.
  destruct (left !! i) as [l|], (right !! i) as [r|]; simpl; try reflexivity.
  destruct (String.eqb (raw l) (raw r)); reflexivity.
Qed.

Lemma compare_closed left right :
  ComparisonView.compare left right
  = Ok ((λ i, lineOf (left !! i) (right !! i))
          <$> seq 0 (Nat.max (length left) (length right))).
Proof.
  unfold ComparisonView.compare.
  rewrite (forLoop_push _ (λ i, lineOf (left !! i) (right !! i))); [done|].
  intros j acc' _. apply comparisonStep_push.
Qed.

Lemma lookup_absent_both (left right : list EDISegment) i :
  i < Nat.max (length left) (length right) →
  ¬ (left !! i = None ∧ right !! i = None).
Proof.
  intros Hi [Hl Hr].
  apply lookup_ge_None in Hl. apply lookup_ge_None in Hr. lia.
Qed.

Lemma diffStep_push left right i diffs :
  i < Nat.max (length left) (length right) →
  AnimatedEDIDiff.diffStep left right i diffs
  = Ok (push diffs (flatten i (lineOf (left !! i) (right !! i)))).
Proof.
  intros Hi. pose proof (lookup_absent_both left right i Hi) as Hboth.
  unfold AnimatedEDIDiff.diffStep, flatten, lineOf.
  destruct (left !! i) as [l|], (right !! i) as [r|]; simpl; try reflexivity.
  - destruct (String.eqb (raw l) (raw r)); reflexivity.
  - exfalso. by apply Hboth.
Qed.

Lemma diff_closed left right :
  AnimatedEDIDiff.diff left right
  = Ok ((λ i, flatten i (lineOf (left !! i) (right !! i)))
          <$> seq 0 (Nat.max (length left) (length right))).
Proof.
  unfold AnimatedEDIDiff.diff.
  rewrite (forLoop_push _ (λ i, flatten i (lineOf (left !! i) (right !! i)))); [done|].
  intros j acc' Hj. apply diffStep_push. lia.
Qed.

Lemma lookup_fmap_seq {A : Type} (f : nat → A) n i :
  i < n → (f <$> seq 0 n) !! i = Some (f i).
Proof.
  intros Hi. rewrite list_lookup_fmap, lookup_seq_lt by done. reflexivity.
Qed.

(** ** The diff engine *)

Lemma lineOf_diffType_cases (l r : option EDISegment) :
  ¬ (l = None ∧ r = None) →
  let d := ComparisonView.diffType (lineOf l r) in
  (d = Added ↔ l = None ∧ is_Some r) ∧
  (d = Removed ↔ is_Some l ∧ r = None) ∧
  (d = Modified ↔ ∃ a b, l = Some a ∧ r = Some b ∧ raw a ≠ raw b) ∧
  (d = Unchanged ↔ ∃ a b, l = Some a ∧ r = Some b ∧ raw a = raw b).
Proof.
  intros Hboth. destruct l as [a|], r as [b|]; simpl.
  - destruct (String.eqb_spec (raw a) (raw b)) as [Heq|Hne]; split_cases.
  - split_cases.
  - split_cases.
  - exfalso. by apply Hboth.
Qed.

(** C1. At every index below the longer length, both components give the
    position the same diff type, and it is [Added] exactly when only the
    right segment is present, [Removed] exactly when only the left one is,
    [Modified] exactly when both are present with different [raw] strings,
    and [Unchanged] exactly when both are present with equal [raw]
    strings. *)
Theorem diffType_by_position (left right : list EDISegment) (i : nat) :
  i < Nat.max (length left) (length right) →
  ∃ comparison line diffs d,
    ComparisonView.compare left right = Ok comparison ∧
    comparison !! i = Some line ∧
    AnimatedEDIDiff.diff left right = Ok diffs ∧
    diffs !! i = Some d ∧
    AnimatedEDIDiff.type d = ComparisonView.diffType line ∧
    (ComparisonView.diffType line = Added
       ↔ left !! i = None ∧ is_Some (right !! i)) ∧
    (ComparisonView.diffType line = Removed
       ↔ is_Some (left !! i) ∧ right !! i = None) ∧
    (ComparisonView.diffType line = Modified
       ↔ ∃ l r, left !! i = Some l ∧ right !! i = Some r ∧ raw l ≠ raw r) ∧
    (ComparisonView.diffType line = Unchanged
       ↔ ∃ l r, left !! i = Some l ∧ right !! i = Some r ∧ raw l = raw r).
Proof.
  intros Hi.
  exists ((λ i, lineOf (left !! i) (right !! i))
            <$> seq 0 (Nat.max (length left) (length right))),
         (lineOf (left !! i) (right !! i)),
         ((λ i, flatten i (lineOf (left !! i) (right !! i)))
            <$> seq 0 (Nat.max (length left) (length right))),
         (flatten i (lineOf (left !! i) (right !! i))).
  split; [apply compare_closed|].
  split; [by apply (lookup_fmap_seq (λ i, lineOf (left !! i) (right !! i)))|].
  split; [apply diff_closed|].
  split; [by apply (lookup_fmap_seq (λ i, flatten i (lineOf (left !! i) (right !! i))))|].
  split; [reflexivity|].
  apply lineOf_diffType_cases. by apply lookup_absent_both.
Qed.

Lemma diffType_by_position_witness :
  ∃ comparison line diffs d,
    ComparisonView.compare sampleLeft sampleRight = Ok comparison ∧
    comparison !! 2 = Some line ∧
    AnimatedEDIDiff.diff sampleLeft sampleRight = Ok diffs ∧
    diffs !! 2 = Some d ∧
    AnimatedEDIDiff.type d = ComparisonView.diffType line ∧
    (ComparisonView.diffType line = Added
       ↔ sampleLeft !! 2 = None ∧ is_Some (sampleRight !! 2)) ∧
    (ComparisonView.diffType line = Removed
       ↔ is_Some (sampleLeft !! 2) ∧ sampleRight !! 2 = None) ∧
    (ComparisonView.diffType line = Modified
       ↔ ∃ l r, sampleLeft !! 2 = Some l ∧ sampleRight !! 2 = Some r ∧ raw l ≠ raw r) ∧
    (ComparisonView.diffType line = Unchanged
       ↔ ∃ l r, sampleLeft !! 2 = Some l ∧ sampleRight !! 2 = Some r ∧ raw l = raw r).
Proof. apply (diffType_by_position sampleLeft sampleRight 2). simpl. lia. Defined.

(** C2. The comparison has as many lines as the longer input has
    segments, and its lines are those of the positions 0, 1, 2, ... in
    this order; the loop always returns, and returns the empty sequence
    for two empty inputs. The same holds of the animated view. *)
Theorem compare_length (left right : list EDISegment) :
  let n := Nat.max (length left) (length right) in
  ∃ comparison diffs,
    ComparisonView.compare left right = Ok comparison ∧
    AnimatedEDIDiff.diff left right = Ok diffs ∧
    length comparison = n ∧
    length diffs = n ∧
    ComparisonView.leftSegment <$> comparison = (λ i, left !! i) <$> seq 0 n ∧
    ComparisonView.rightSegment <$> comparison = (λ i, right !! i) <$> seq 0 n ∧
    AnimatedEDIDiff.index <$> diffs = seq 0 n ∧
    ComparisonView.compare [] [] = Ok [] ∧
    AnimatedEDIDiff.diff [] [] = Ok [].
Proof.
  intros n. eexists _, _.
  split; [apply compare_closed|]. split; [apply diff_closed|]. fold n.
  repeat split.
  - by rewrite length_fmap, length_seq.
  - by rewrite length_fmap, length_seq.
  - by rewrite <- list_fmap_compose.
  - by rewrite <- list_fmap_compose.
  - rewrite <- list_fmap_compose. apply list_fmap_id.
Qed.

Lemma lineOf_sidesAgree (l r : option EDISegment) :
  ¬ (l = None ∧ r = None) → sidesAgree (lineOf l r) ∧ notBothAbsent (lineOf l r).
Proof.
  intros Hboth. split; [|exact Hboth].
  unfold sidesAgree. destruct l as [a|], r as [b|]; simpl.
  - destruct (String.eqb (raw a) (raw b)); split; eauto.
  - right. eauto.
  - left. eauto.
  - exfalso. by apply Hboth.
Qed.

(** C3. In every line of a comparison exactly one side is absent when
    the diff type is [Added] or [Removed], both sides are present when it
    is [Modified] or [Unchanged], and never are both sides absent. *)
Theorem line_sides (left right : list EDISegment) :
  ∃ comparison,
    ComparisonView.compare left right = Ok comparison ∧
    Forall (λ line, sidesAgree line ∧ notBothAbsent line) comparison.
Proof.
  eexists. split; [apply compare_closed|].
  apply Forall_fmap, Forall_forall. intros i Hi.
  apply elem_of_seq in Hi. apply lineOf_sidesAgree, lookup_absent_both. lia.
Qed.

(** ** Statistics *)

Lemma increment_sum d stats :
  sumOfCounts (ComparisonView.increment d stats) = S (sumOfCounts stats).
Proof. destruct d; unfold sumOfCounts; simpl; lia. Qed.

Lemma forEach_increment_sum comparison stats :
  sumOfCounts
    (forEach (λ line stats, ComparisonView.increment (ComparisonView.diffType line) stats)
       comparison stats)
  = sumOfCounts stats + length comparison.
Proof.
  unfold forEach. revert stats.
  induction comparison as [|line comparison IH]; intros stats; simpl.
  - lia.
  - rewrite IH, increment_sum. lia.
Qed.

Lemma diffStats_sum comparison :
  sumOfCounts (ComparisonView.diffStats comparison) = length comparison.
Proof. unfold ComparisonView.diffStats. by rewrite forEach_increment_sum. Qed.

Lemma stats_sum diffs :
  AnimatedEDIDiff.added (AnimatedEDIDiff.stats diffs)
  + AnimatedEDIDiff.removed (AnimatedEDIDiff.stats diffs)
  + AnimatedEDIDiff.modified (AnimatedEDIDiff.stats diffs)
  + AnimatedEDIDiff.unchanged (AnimatedEDIDiff.stats diffs)
  = length diffs.
Proof.
  simpl. induction diffs as [|d diffs IH]; simpl; [done|].
  destruct (AnimatedEDIDiff.type d); simpl; lia.
Qed.

(** C4. The four counts tallied over the whole comparison add up to the
    length of the longer input, in [ComparisonView] ([diffStats]) and in
    [AnimatedEDIDiff] ([stats], whose [total] is that length too). *)
Theorem stats_total (left right : list EDISegment) :
  ∃ comparison diffs,
    ComparisonView.compare left right = Ok comparison ∧
    AnimatedEDIDiff.diff left right = Ok diffs ∧
    ComparisonView.added (ComparisonView.diffStats comparison)
    + ComparisonView.removed (ComparisonView.diffStats comparison)
    + ComparisonView.modified (ComparisonView.diffStats comparison)
    + ComparisonView.unchanged (ComparisonView.diffStats comparison)
    = Nat.max (length left) (length right) ∧
    AnimatedEDIDiff.added (AnimatedEDIDiff.stats diffs)
    + AnimatedEDIDiff.removed (AnimatedEDIDiff.stats diffs)
    + AnimatedEDIDiff.modified (AnimatedEDIDiff.stats diffs)
    + AnimatedEDIDiff.unchanged (AnimatedEDIDiff.stats diffs)
    = Nat.max (length left) (length right) ∧
    AnimatedEDIDiff.total (AnimatedEDIDiff.stats diffs)
    = Nat.max (length left) (length right).
Proof.
  eexists _, _.
  split; [apply compare_closed|]. split; [apply diff_closed|].
  split; [|split].
  - pose proof (diffStats_sum ((λ i, lineOf (left !! i) (right !! i))
        <$> seq 0 (Nat.max (length left) (length right)))) as Hsum.
    unfold sumOfCounts in Hsum. rewrite Hsum.
    by rewrite length_fmap, length_seq.
  - rewrite stats_sum. by rewrite length_fmap, length_seq.
  - simpl. by rewrite length_fmap, length_seq.
Qed.

(** ** The two views agree *)

Lemma imap_seq_fmap {A B : Type} (g : nat → A → B) (f : nat → A) n :
  imap g (f <$> seq 0 n) = (λ i, g i (f i)) <$> seq 0 n.
Proof.
  apply list_eq. intros i. rewrite list_lookup_imap.
  destruct (decide (i < n)) as [Hi|Hi].
  - rewrite !lookup_fmap_seq by done. reflexivity.
  - rewrite !list_lookup_fmap, !lookup_seq_ge by lia. reflexivity.
Qed.

Lemma diff_flatten left right :
  ∃ comparison diffs,
    ComparisonView.compare left right = Ok comparison ∧
    AnimatedEDIDiff.diff left right = Ok diffs ∧
    diffs = imap flatten comparison.
Proof.
  eexists _, _.
  split; [apply compare_closed|]. split; [apply diff_closed|].
  by rewrite imap_seq_fmap.
Qed.

(** C6. For every pair of files (selected or not) and every parser, the
    [DiffSegment]s of [AnimatedEDIDiff] are the [ComparisonLine]s of
    [ComparisonView], flattened: at every index the same diff type, the
    tag and raw text of each present side, and the index itself. *)
Theorem views_agree (parseEDIContent : string → ParsedEDI)
    (leftFile rightFile : option EDIFile) :
  ∃ comparison diffs,
    ComparisonView.comparisonData parseEDIContent leftFile rightFile = Ok comparison ∧
    AnimatedEDIDiff.diffSegments parseEDIContent leftFile rightFile = Ok diffs ∧
    length diffs = length comparison ∧
    diffs = imap flatten comparison ∧
    ∀ i, diffs !! i = flatten i <$> comparison !! i.
Proof.
  unfold ComparisonView.comparisonData, AnimatedEDIDiff.diffSegments.
  destruct leftFile as [lf|], rightFile as [rf|]; simpl;
    try (exists [], []; split_and!; try done; by intros []).
  destruct (diff_flatten (segments (parseEDIContent (content lf)))
              (segments (parseEDIContent (content rf))))
    as (comparison & diffs & Hc & Hd & Heq).
  exists comparison, diffs. subst diffs. split_and!; try done.
  - by rewrite length_imap.
  - intros i. by rewrite list_lookup_imap.
Qed.

(** ** Filtering *)

Lemma startsWith_spec s t :
  startsWith s t = true ↔ ∃ after, s = t +:+ after.
Proof.
  revert s. induction t as [|b t IH]; intros s; simpl.
  - split; [intros _; by exists s | done].
  - destruct s as [|a s].
    + split; [done | intros [after Heq]; discriminate].
    + rewrite andb_true_iff, IH. split.
      * intros [Hab [after ->]]. apply Ascii.eqb_eq in Hab as ->. by exists after.
      * intros [after [= -> ->]]. split; [apply Ascii.eqb_refl | by exists after].
Qed.

Lemma includes_spec s t :
  includes s t = true ↔ ∃ before after, s = before +:+ t +:+ after.
Proof.
  induction s as [|a s IH]; simpl.
  - rewrite orb_false_r, startsWith_spec. split.
    + intros [after ->]. by exists EmptyString, after.
    + intros (before & after & Heq). destruct before; [by exists after | discriminate].
  - rewrite orb_true_iff, startsWith_spec, IH. split.
    + intros [[after ->] | (before & after & ->)].
      * by exists EmptyString, after.
      * by exists (String a before), after.
    + intros (before & after & Heq). destruct before as [|b before].
      * left. by exists after.
      * right. injection Heq as -> ->. by exists before, after.
Qed.

Lemma truthyBool_or a b :
  truthyBool (JS.or a b) = truthyBool a || truthyBool b.
Proof. unfold JS.or. destruct a as [[]|]; reflexivity. Qed.

Lemma matchesSearch_spec searchTerm line :
  truthyBool (ComparisonView.matchesSearch searchTerm line) = true
  ↔ searchHit searchTerm line.
Proof.
  unfold ComparisonView.matchesSearch, searchHit, containsIgnoringCase.
  rewrite !truthyBool_or, !orb_true_iff.
  destruct (ComparisonView.leftSegment line) as [l|],
           (ComparisonView.rightSegment line) as [r|]; simpl; split.
  - intros [[[Hm|Hm]|Hm]|Hm]; apply includes_spec in Hm;
      [exists l|exists r|exists l|exists r]; auto.
  - intros (segment & [[= <-]|[= <-]] & [Hm|Hm]); apply includes_spec in Hm; auto.
  - intros [[[Hm|Hm]|Hm]|Hm]; try discriminate; apply includes_spec in Hm;
      exists l; auto.
  - intros (segment & [[= <-]|[=]] & [Hm|Hm]); apply includes_spec in Hm; auto.
  - intros [[[Hm|Hm]|Hm]|Hm]; try discriminate; apply includes_spec in Hm;
      exists r; auto.
  - intros (segment & [[=]|[= <-]] & [Hm|Hm]); apply includes_spec in Hm; auto.
  - intros [[[Hm|Hm]|Hm]|Hm]; discriminate.
  - intros (segment & [[=]|[=]] & _).
Qed.

Lemma filter_filter_and {A : Type} (f g : A → bool) (l : list A) :
  List.filter g (List.filter f l) = List.filter (λ x, f x && g x) l.
Proof.
  induction l as [|x l IH]; simpl; [done|].
  destruct (f x); simpl; [destruct (g x)|]; by rewrite IH.
Qed.

Lemma filter_true {A : Type} (l : list A) : List.filter (λ _, true) l = l.
Proof. induction l as [|x l IH]; simpl; by rewrite ?IH. Qed.

Lemma filter_is_sublist {A : Type} (f : A → bool) (l : list A) :
  sublist (List.filter f l) l.
Proof.
  induction l as [|x l IH]; simpl; [constructor|].
  destruct (f x); by constructor.
Qed.

Lemma filteredComparison_filter comparison searchTerm showOnlyDifferences :
  ComparisonView.filteredComparison comparison searchTerm showOnlyDifferences
  = List.filter (kept searchTerm showOnlyDifferences) comparison.
Proof.
  unfold ComparisonView.filteredComparison, kept.
  destruct showOnlyDifferences, (truthyString searchTerm); simpl.
  - apply filter_filter_and.
  - apply List.filter_ext. intros line. by rewrite andb_true_r.
  - reflexivity.
  - by rewrite filter_true.
Qed.

Lemma kept_passes searchTerm showOnlyDifferences line :
  kept searchTerm showOnlyDifferences line = true
  ↔ passes searchTerm showOnlyDifferences line.
Proof.
  unfold kept, passes. rewrite andb_true_iff.
  assert ((if showOnlyDifferences
           then negb (DiffType_eqb (ComparisonView.diffType line) Unchanged)
           else true) = true
          ↔ (showOnlyDifferences = true → ComparisonView.diffType line ≠ Unchanged))
    as ->.
  { destruct showOnlyDifferences.
    - destruct (ComparisonView.diffType line); simpl; split; try done.
      intros H. by specialize (H eq_refl).
    - split; [discriminate | done]. }
  assert ((if truthyString searchTerm
           then truthyBool (ComparisonView.matchesSearch searchTerm line)
           else true) = true
          ↔ (searchTerm ≠ EmptyString → searchHit searchTerm line)) as ->.
  { destruct searchTerm as [|c s]; simpl.
    - split; done.
    - rewrite matchesSearch_spec. split; [auto | intros H; by apply H]. }
  reflexivity.
Qed.

(** C7. The filtered comparison is a subsequence of the comparison, in
    the same order, and holds exactly the lines that pass both filters: a
    diff type other than [Unchanged] when the toggle is set, and a
    case-insensitive occurrence of the search string in the raw text or tag
    of a present side when the search string is not empty. A comparison
    with diff types unchanged, modified, unchanged, added is filtered by the
    toggle alone to its second and fourth line. *)
Theorem filtered_lines (comparison : list ComparisonView.ComparisonLine)
    (searchTerm : string) (showOnlyDifferences : bool) :
  let filtered :=
    ComparisonView.filteredComparison comparison searchTerm showOnlyDifferences in
  sublist filtered comparison ∧
  (∃ keep : ComparisonView.ComparisonLine → bool,
     (∀ line, keep line = true ↔ passes searchTerm showOnlyDifferences line) ∧
     filtered = List.filter keep comparison) ∧
  (∀ line, line ∈ filtered
     ↔ line ∈ comparison ∧ passes searchTerm showOnlyDifferences line) ∧
  (ComparisonView.diffType <$> comparison = [Unchanged; Modified; Unchanged; Added] →
   ∃ l1 l2 l3 l4,
     comparison = [l1; l2; l3; l4] ∧
     ComparisonView.filteredComparison comparison EmptyString true = [l2; l4] ∧
     ComparisonView.diffType <$> [l2; l4] = [Modified; Added]).
Proof.
  intros filtered. subst filtered. rewrite filteredComparison_filter.
  split; [apply filter_is_sublist|].
  split; [exists (kept searchTerm showOnlyDifferences); split;
            [apply kept_passes | reflexivity]|].
  split.
  - intros line. rewrite !list_elem_of_In, List.filter_In.
    by rewrite kept_passes.
  - intros Htypes.
    destruct comparison as [|l1 [|l2 [|l3 [|l4 [|l5 rest]]]]]; try discriminate.
    injection Htypes as H1 H2 H3 H4.
    exists l1, l2, l3, l4. split; [reflexivity|].
    unfold ComparisonView.filteredComparison. simpl. rewrite H1, H2, H3, H4. simpl.
    split; [reflexivity | congruence].
Qed.

Lemma filtered_lines_witness :
  ∃ l1 l2 l3 l4,
    sampleComparison = [l1; l2; l3; l4] ∧
    ComparisonView.filteredComparison sampleComparison EmptyString true = [l2; l4] ∧
    ComparisonView.diffType <$> [l2; l4] = [Modified; Added].
Proof.
  apply (filtered_lines sampleComparison EmptyString true). reflexivity.
Defined.

(** ** Statistics are not affected by the filters *)

Lemma comparisonData_total (parseEDIContent : string → ParsedEDI)
    (leftFile rightFile : option EDIFile) :
  ∃ comparison,
    ComparisonView.comparisonData parseEDIContent leftFile rightFile = Ok comparison.
Proof.
  unfold ComparisonView.comparisonData.
  destruct leftFile as [lf|], rightFile as [rf|]; simpl; eauto.
  rewrite compare_closed. eauto.
Qed.

Lemma render_stats (parseEDIContent : string → ParsedEDI)
    (leftFile rightFile : option EDIFile) comparison st :
  ComparisonView.comparisonData parseEDIContent leftFile rightFile = Ok comparison →
  ∃ memo,
    ComparisonView.render parseEDIContent leftFile rightFile st = Ok memo ∧
    ComparisonView.memoComparisonData memo = comparison ∧
    ComparisonView.memoFilteredComparison memo
    = ComparisonView.filteredComparison comparison
        (ComparisonView.searchTerm st) (ComparisonView.showOnlyDifferences st) ∧
    ComparisonView.memoDiffStats memo = ComparisonView.diffStats comparison.
Proof.
  intros Hc. unfold ComparisonView.render. rewrite Hc. simpl. eauto.
Qed.

(** C8. Whatever the files, and whatever the user has typed into the
    search box and however often the differences button was pressed, the
    statistics of a render are those tallied over the unfiltered
    comparison; they are the same for every search string and toggle
    state, and the comparison itself is left as it was. *)
Theorem stats_ignore_filters (parseEDIContent : string → ParsedEDI)
    (leftFile rightFile : option EDIFile) (events : list ComparisonView.Event) :
  ∃ comparison memo,
    ComparisonView.comparisonData parseEDIContent leftFile rightFile = Ok comparison ∧
    ComparisonView.render parseEDIContent leftFile rightFile
      (fold_left ComparisonView.handle events ComparisonView.initialState) = Ok memo ∧
    ComparisonView.memoDiffStats memo = ComparisonView.diffStats comparison ∧
    ComparisonView.memoComparisonData memo = comparison ∧
    ∀ searchTerm showOnlyDifferences,
      ∃ memo',
        ComparisonView.render parseEDIContent leftFile rightFile
          {| ComparisonView.searchTerm := searchTerm;
             ComparisonView.showOnlyDifferences := showOnlyDifferences |} = Ok memo' ∧
        ComparisonView.memoFilteredComparison memo'
        = ComparisonView.filteredComparison comparison searchTerm showOnlyDifferences ∧
        ComparisonView.memoDiffStats memo' = ComparisonView.memoDiffStats memo ∧
        ComparisonView.memoComparisonData memo' = ComparisonView.memoComparisonData memo.
Proof.
  destruct (comparisonData_total parseEDIContent leftFile rightFile)
    as [comparison Hc].
  destruct (render_stats parseEDIContent leftFile rightFile comparison
              (fold_left ComparisonView.handle events ComparisonView.initialState) Hc)
    as (memo & Hr & Hdata & _ & Hstats).
  exists comparison, memo. repeat split; try done.
  intros searchTerm showOnlyDifferences.
  destruct (render_stats parseEDIContent leftFile rightFile comparison
              {| ComparisonView.searchTerm := searchTerm;
                 ComparisonView.showOnlyDifferences := showOnlyDifferences |} Hc)
    as (memo' & Hr' & Hdata' & Hfiltered' & Hstats').
  exists memo'. repeat split; try done; congruence.
Qed.

(** ** Regular expressions *)

Lemma append_nil_l (s : string) : EmptyString +:+ s = s.
Proof. reflexivity. Qed.

Lemma append_cons c (s1 s2 : string) : String c s1 +:+ s2 = String c (s1 +:+ s2).
Proof. reflexivity. Qed.

Lemma append_empty_r (s : string) : s +:+ EmptyString = s.
Proof.
  induction s as [|c s IH]; [done|]. by rewrite append_cons, IH.
Qed.

Lemma append_eq_empty (s1 s2 : string) :
  s1 +:+ s2 = EmptyString → s1 = EmptyString ∧ s2 = EmptyString.
Proof. destruct s1; [done | discriminate]. Qed.

Lemma append_assoc (s1 s2 s3 : string) : (s1 +:+ s2) +:+ s3 = s1 +:+ s2 +:+ s3.
Proof.
  induction s1 as [|c s1 IH]; [done|]. by rewrite !append_cons, IH.
Qed.

Lemma append_length (s1 s2 : string) :
  String.length (s1 +:+ s2) = String.length s1 + String.length s2.
Proof.
  induction s1 as [|c s1 IH]; [done|]. rewrite append_cons. simpl. by rewrite IH.
Qed.

Lemma allChars_append p s1 s2 :
  allChars p (s1 +:+ s2) = allChars p s1 && allChars p s2.
Proof.
  induction s1 as [|c s1 IH]; [done|].
  rewrite append_cons. simpl. by rewrite IH, andb_assoc.
Qed.

Lemma Matches_Never s : Matches Never s ↔ False.
Proof. split; [inversion 1 | done]. Qed.

Lemma Matches_Empty s : Matches Empty s ↔ s = EmptyString.
Proof. split; [by inversion 1 | intros ->; constructor]. Qed.

Lemma Matches_Class p s :
  Matches (Class p) s ↔ ∃ c, s = String c EmptyString ∧ p c = true.
Proof.
  split; [inversion 1; eauto | intros (c & -> & Hc); by constructor].
Qed.

Lemma Matches_Seq r1 r2 s :
  Matches (Seq r1 r2) s ↔ ∃ s1 s2, s = s1 +:+ s2 ∧ Matches r1 s1 ∧ Matches r2 s2.
Proof.
  split; [inversion 1; eauto | intros (s1 & s2 & -> & H1 & H2); by constructor].
Qed.

Lemma Matches_Alt r1 r2 s :
  Matches (Alt r1 r2) s ↔ Matches r1 s ∨ Matches r2 s.
Proof.
  split; [inversion 1; auto | intros [H|H]; [by apply MAltL | by apply MAltR]].
Qed.

Lemma nullable_spec r : nullable r = true ↔ Matches r EmptyString.
Proof.
  split.
  - induction r as [| |p|r1 IH1 r2 IH2|r1 IH1 r2 IH2|r IH]; simpl; intros Hn;
      try discriminate.
    + constructor.
    + apply andb_true_iff in Hn as [H1 H2].
      apply (MSeq r1 r2 EmptyString EmptyString); auto.
    + apply orb_true_iff in Hn as [H|H]; [apply MAltL | apply MAltR]; auto.
    + constructor.
  - intros Hm. remember EmptyString as s eqn:Hs.
    induction Hm as [|p c Hc|r1 r2 s1 s2 H1 IH1 H2 IH2|r1 r2 s H IH|r1 r2 s H IH
                     |r|r s1 s2 H1 IH1 H2 IH2]; simpl; try done.
    + apply append_eq_empty in Hs as [-> ->]. by rewrite IH1, IH2.
    + by rewrite IH.
    + rewrite IH by done. apply orb_true_r.
Qed.

Lemma deriv_sound c r : ∀ s, Matches (deriv c r) s → Matches r (String c s).
Proof.
  induction r as [| |p|r1 IH1 r2 IH2|r1 IH1 r2 IH2|r IH]; simpl; intros s Hm.
  - by apply Matches_Never in Hm.
  - by apply Matches_Never in Hm.
  - destruct (p c) eqn:Hc.
    + apply Matches_Empty in Hm as ->. by constructor.
    + by apply Matches_Never in Hm.
  - destruct (nullable r1) eqn:Hn.
    + apply Matches_Alt in Hm as [Hm|Hm].
      * apply Matches_Seq in Hm as (s1 & s2 & -> & H1 & H2).
        apply (MSeq r1 r2 (String c s1) s2); auto.
      * apply (MSeq r1 r2 EmptyString (String c s)); [by apply nullable_spec | auto].
    + apply Matches_Seq in Hm as (s1 & s2 & -> & H1 & H2).
      apply (MSeq r1 r2 (String c s1) s2); auto.
  - apply Matches_Alt in Hm as [Hm|Hm]; [apply MAltL | apply MAltR]; auto.
  - apply Matches_Seq in Hm as (s1 & s2 & -> & H1 & H2).
    apply (MStarCons r (String c s1) s2); auto.
Qed.

Lemma deriv_complete c r s0 :
  Matches r s0 → ∀ s, s0 = String c s → Matches (deriv c r) s.
Proof.
  induction 1 as [|p a Ha|r1 r2 s1 s2 H1 IH1 H2 IH2|r1 r2 s' H IH|r1 r2 s' H IH
                  |r|r s1 s2 H1 IH1 H2 IH2]; simpl; intros s Hs.
  - discriminate.
  - injection Hs as -> <-. rewrite Ha. constructor.
  - destruct s1 as [|a s1]; rewrite ?append_nil_l, ?append_cons in Hs.
    + assert (nullable r1 = true) as -> by by apply nullable_spec.
      apply MAltR. by apply IH2.
    + injection Hs as -> <-.
      assert (Matches (Seq (deriv c r1) r2) (s1 +:+ s2)) as Hseq
        by (constructor; auto).
      destruct (nullable r1); [by apply MAltL | done].
  - apply MAltL. by apply IH.
  - apply MAltR. by apply IH.
  - discriminate.
  - destruct s1 as [|a s1]; rewrite ?append_nil_l, ?append_cons in Hs.
    + by apply IH2.
    + injection Hs as -> <-. constructor; auto.
Qed.

Lemma deriv_spec c r s : Matches (deriv c r) s ↔ Matches r (String c s).
Proof.
  split; [apply deriv_sound | intros Hm; by apply (deriv_complete c r (String c s))].
Qed.

(** [test] decides [Matches]. *)
Lemma test_spec r s : test r s = true ↔ Matches r s.
Proof.
  revert r. induction s as [|c s IH]; intros r; simpl.
  - apply nullable_spec.
  - by rewrite IH, deriv_spec.
Qed.

Lemma Matches_Star_Class p s :
  Matches (Star (Class p)) s ↔ allChars p s = true.
Proof.
  split.
  - intros Hm. remember (Star (Class p)) as r eqn:Hr.
    induction Hm as [|q c Hc|r1 r2 s1 s2 H1 IH1 H2 IH2|r1 r2 s H IH|r1 r2 s H IH
                     |r|r s1 s2 H1 IH1 H2 IH2]; try discriminate; [done|].
    injection Hr as ->. apply Matches_Class in H1 as (c & -> & Hc).
    rewrite allChars_append. simpl. rewrite Hc. simpl. by apply IH2.
  - induction s as [|c s IH]; simpl; intros Hall; [constructor|].
    apply andb_true_iff in Hall as [Hc Hs].
    apply (MStarCons (Class p) (String c EmptyString) s); [by constructor | auto].
Qed.

Lemma Matches_Plus_Class p s :
  Matches (Plus (Class p)) s ↔ s ≠ EmptyString ∧ allChars p s = true.
Proof.
  unfold Plus. rewrite Matches_Seq. split.
  - intros (s1 & s2 & -> & H1 & H2).
    apply Matches_Class in H1 as (c & -> & Hc). apply Matches_Star_Class in H2.
    rewrite append_cons, append_nil_l. simpl. by rewrite Hc, H2.
  - intros [Hne Hall]. destruct s as [|c s]; [done|]. simpl in Hall.
    apply andb_true_iff in Hall as [Hc Hs].
    exists (String c EmptyString), s. split; [done|].
    split; [by constructor | by apply Matches_Star_Class].
Qed.

Lemma Matches_Times_Class p n s :
  Matches (Times n (Class p)) s ↔ String.length s = n ∧ allChars p s = true.
Proof.
  revert s. induction n as [|n IH]; intros s; simpl.
  - rewrite Matches_Empty. split; [by intros -> | intros [Hlen _]].
    by destruct s.
  - rewrite Matches_Seq. split.
    + intros (s1 & s2 & -> & H1 & H2).
      apply Matches_Class in H1 as (c & -> & Hc). apply IH in H2 as [Hlen Hall].
      rewrite append_cons, append_nil_l. simpl. by rewrite Hlen, Hc, Hall.
    + intros [Hlen Hall]. destruct s as [|c s]; [done|]. simpl in Hlen, Hall.
      apply andb_true_iff in Hall as [Hc Hs].
      exists (String c EmptyString), s. split; [done|].
      split; [by constructor | apply IH; split; [lia | done]].
Qed.

(** ** The element classifier *)

Lemma test_date element :
  test (Times 8 (Class digit)) element || test (Times 6 (Class digit)) element = true
  ↔ dateRule element.
Proof.
  unfold dateRule.
  rewrite orb_true_iff, !test_spec, !Matches_Times_Class. tauto.
Qed.

Lemma test_number element :
  test (Seq (Plus (Class digit)) (Opt (Seq (Class dot) (Plus (Class digit))))) element = true
  ↔ numberRule element.
Proof.
  unfold numberRule, digits, Opt. rewrite test_spec, Matches_Seq. split.
  - intros (whole & rest & -> & Hw & Hrest).
    apply Matches_Plus_Class in Hw. exists whole. split; [done|].
    apply Matches_Alt in Hrest as [Hrest | Hrest].
    + right. apply Matches_Seq in Hrest as (d & fraction & -> & Hd & Hf).
      apply Matches_Class in Hd as (c & -> & Hc).
      unfold dot in Hc. apply Ascii.eqb_eq in Hc as <-.
      apply Matches_Plus_Class in Hf.
      by exists fraction.
    + left. apply Matches_Empty in Hrest as ->. apply append_empty_r.
  - intros (whole & Hw & [-> | (fraction & Hf & ->)]).
    + exists whole, EmptyString. rewrite append_empty_r.
      split; [done|]. split; [by apply Matches_Plus_Class|].
      apply MAltR. constructor.
    + exists whole, ("." +:+ fraction). split; [done|].
      split; [by apply Matches_Plus_Class|].
      apply MAltL. apply (MSeq _ _ "." fraction).
      * by constructor.
      * by apply Matches_Plus_Class.
Qed.

Lemma test_qualifier element :
  (String.length element <=? 3)%nat && test (Plus (Class upperOrDigit)) element = true
  ↔ qualifierRule element.
Proof.
  unfold qualifierRule.
  rewrite andb_true_iff, Nat.leb_le, test_spec, Matches_Plus_Class.
  destruct element as [|c s]; simpl.
  - split; [by intros [_ [? _]] | lia].
  - split.
    + intros [Hlen [_ Hall]]. split; [lia | done].
    + intros [Hlen Hall]. split; [lia | done].
Qed.

Lemma iff_true_holds (b : bool) (P : Prop) : (b = true ↔ P) → b = true → P.
Proof. intros H Hb. by apply H. Qed.

Lemma iff_false_fails (b : bool) (P : Prop) : (b = true ↔ P) → b = false → ¬ P.
Proof. intros H Hb HP. apply H in HP. congruence. Qed.

(** C5, as the code has it. The rules are tried in order and the first
    that applies wins: [edi-date] for exactly eight or six digits;
    otherwise [edi-number] for digits with an optional [.] and digits;
    otherwise [edi-qualifier] for one to three upper-case letters or digits;
    otherwise [edi-element]. *)
Theorem getElementClass_rules (element : string) :
  (ComparisonView.getElementClass element = "edi-date" ↔ dateRule element) ∧
  (ComparisonView.getElementClass element = "edi-number"
     ↔ ¬ dateRule element ∧ numberRule element) ∧
  (ComparisonView.getElementClass element = "edi-qualifier"
     ↔ ¬ dateRule element ∧ ¬ numberRule element ∧ qualifierRule element) ∧
  (ComparisonView.getElementClass element = "edi-element"
     ↔ ¬ dateRule element ∧ ¬ numberRule element ∧ ¬ qualifierRule element) ∧
  ComparisonView.getElementClass "20240115" = "edi-date" ∧
  ComparisonView.getElementClass "123.45" = "edi-number" ∧
  ComparisonView.getElementClass "HC" = "edi-qualifier" ∧
  ComparisonView.getElementClass "Acme Health Plan" = "edi-element".
Proof.
  split_and!; try reflexivity; unfold ComparisonView.getElementClass.
  all: destruct (test (Times 8 (Class digit)) element
                 || test (Times 6 (Class digit)) element) eqn:Hd;
    [apply (iff_true_holds _ _ (test_date element)) in Hd
    |apply (iff_false_fails _ _ (test_date element)) in Hd;
     destruct (test (Seq (Plus (Class digit))
                 (Opt (Seq (Class dot) (Plus (Class digit))))) element) eqn:Hn;
     [apply (iff_true_holds _ _ (test_number element)) in Hn
     |apply (iff_false_fails _ _ (test_number element)) in Hn;
      destruct ((String.length element <=? 3)%nat
                && test (Plus (Class upperOrDigit)) element) eqn:Hq;
      [apply (iff_true_holds _ _ (test_qualifier element)) in Hq
      |apply (iff_false_fails _ _ (test_qualifier element)) in Hq]]].
  all: split; [intros Hclass; try discriminate; tauto | intros Hrules; tauto].
Qed.

(** C5 as stated fails at the empty element: it is no date and no number,
    it has at most three characters and no character other than an
    upper-case letter or a digit, and yet its class is not
    [edi-qualifier]. *)
Lemma getElementClass_empty_not_as_stated :
  ¬ (ComparisonView.getElementClass EmptyString = "edi-qualifier"
     ↔ ¬ dateRule EmptyString ∧ ¬ numberRule EmptyString
       ∧ qualifierRuleAsStated EmptyString).
Proof.
  intros [_ Hrules].
  assert (ComparisonView.getElementClass EmptyString = "edi-qualifier") as Hclass.
  { apply Hrules. split_and!.
    - intros [_ [Hlen | Hlen]]; discriminate.
    - intros (whole & [Hne _] & [<- | (fraction & _ & Heq)]); [done|].
      symmetry in Heq. apply append_eq_empty in Heq as [-> _]. done.
    - unfold qualifierRuleAsStated. simpl. split; [lia | done]. }
  discriminate.
Qed.

(** ** Highlighting *)

Lemma split_nonempty sep s : split sep s ≠ [].
Proof.
  destruct s as [|c s]; simpl; [done|].
  destruct (sep c); [done|]. by destruct (split sep s).
Qed.

(** A closing separator leaves an empty last piece. *)
Lemma split_closing sep s c :
  sep c = true →
  split sep (s +:+ String c EmptyString) = split sep s ++ [EmptyString].
Proof.
  intros Hc. induction s as [|a s IH].
  - rewrite append_nil_l. simpl. by rewrite Hc.
  - rewrite append_cons. simpl. rewrite IH.
    destruct (sep a); [done|].
    pose proof (split_nonempty sep s) as Hne.
    by destruct (split sep s).
Qed.

Lemma join_app (a b : list string) : join (a ++ b) = join a +:+ join b.
Proof.
  unfold join. induction a as [|s a IH]; simpl; [done|].
  by rewrite IH, append_assoc.
Qed.

(** C10. The class of the empty element is [edi-element] and not
    [edi-qualifier], although it has at most three characters and none
    that is not an upper-case letter or a digit. Hence a segment whose raw
    text ends with [~] is split into elements of which the last is empty,
    and is highlighted as its other elements followed by an empty span of
    class [edi-element]. *)
Theorem empty_element_generic (t before : string) (n : Z) :
  let segment := {| tag := t; raw := before +:+ "~"; lineNumber := n |} in
  ComparisonView.getElementClass EmptyString = "edi-element" ∧
  ComparisonView.getElementClass EmptyString ≠ "edi-qualifier" ∧
  qualifierRuleAsStated EmptyString ∧
  ∃ elements,
    elements ≠ [] ∧
    split starOrTilde (raw segment) = elements ++ [EmptyString] ∧
    ComparisonView.highlightElement (length elements) EmptyString = emptyElementHTML ∧
    ComparisonView.highlightSegmentHTML segment
    = join (imap ComparisonView.highlightElement elements) +:+ emptyElementHTML.
Proof.
  intros segment. split; [reflexivity|]. split; [discriminate|].
  split; [split; [simpl; lia | reflexivity]|].
  exists (split starOrTilde before).
  pose proof (split_nonempty starOrTilde before) as Hne.
  assert (ComparisonView.highlightElement (length (split starOrTilde before)) EmptyString
          = emptyElementHTML) as Hlast.
  { destruct (split starOrTilde before); [done | reflexivity]. }
  split; [done|].
  assert (split starOrTilde (raw segment) = split starOrTilde before ++ [EmptyString])
    as Hsplit by (by apply split_closing).
  split; [done|]. split; [done|].
  unfold ComparisonView.highlightSegmentHTML. rewrite Hsplit, imap_app, join_app.
  f_equal. simpl. rewrite Nat.add_0_r, Hlast. apply append_empty_r.
Qed.

(** ** Colours *)

(** C9 as stated fails for [getDiffColor] at [Unchanged]: its class names
    green, the colour of an addition, and neither gray nor neutral. *)
Lemma getDiffColor_unchanged_green :
  inVocabulary Unchanged (AnimatedEDIDiff.getDiffColor Unchanged) = false ∧
  coloursNamed (AnimatedEDIDiff.getDiffColor Unchanged) = ["green"] ∧
  ¬ (∀ diffType, inVocabulary diffType (AnimatedEDIDiff.getDiffColor diffType) = true).
Proof.
  split; [reflexivity|]. split; [reflexivity|].
  intros Hall. specialize (Hall Unchanged). discriminate.
Qed.

(** C9, as the code has it. [getDiffColor] gives an addition a blue class,
    a removal a red one, a modification an amber one and an unchanged
    segment a green one. [getDiffClass] gives the style classes
    [diff-added], [diff-removed] and [diff-modified], which name no colour,
    and no class at all to an unchanged line; the dots of the statistics
    header of [ComparisonView] are green, red, yellow and gray. *)
Theorem diff_colours :
  coloursNamed (AnimatedEDIDiff.getDiffColor Added) = ["blue"] ∧
  coloursNamed (AnimatedEDIDiff.getDiffColor Removed) = ["red"] ∧
  coloursNamed (AnimatedEDIDiff.getDiffColor Modified) = ["amber"] ∧
  coloursNamed (AnimatedEDIDiff.getDiffColor Unchanged) = ["green"] ∧
  inVocabulary Added (AnimatedEDIDiff.getDiffColor Added) = true ∧
  inVocabulary Removed (AnimatedEDIDiff.getDiffColor Removed) = true ∧
  inVocabulary Modified (AnimatedEDIDiff.getDiffColor Modified) = true ∧
  inVocabulary Unchanged (AnimatedEDIDiff.getDiffColor Unchanged) = false ∧
  ComparisonView.getDiffClass Added = "diff-added" ∧
  ComparisonView.getDiffClass Removed = "diff-removed" ∧
  ComparisonView.getDiffClass Modified = "diff-modified" ∧
  ComparisonView.getDiffClass Unchanged = EmptyString ∧
  (∀ diffType, coloursNamed (ComparisonView.getDiffClass diffType) = []) ∧
  coloursNamed (ComparisonView.statsDotClass Added) = ["green"] ∧
  coloursNamed (ComparisonView.statsDotClass Removed) = ["red"] ∧
  coloursNamed (ComparisonView.statsDotClass Modified) = ["yellow"] ∧
  coloursNamed (ComparisonView.statsDotClass Unchanged) = ["gray"] ∧
  (∀ diffType, inVocabulary diffType (ComparisonView.statsDotClass diffType) = true).
Proof.
  split_and!; try reflexivity.
  - intros []; reflexivity.
  - intros []; reflexivity.
Qed.

(** ** Scenarios *)

(** [A*1~, B*2~] against [A*1~, B*3~, C*4~]: unchanged, modified, added. *)
Example scenario_longer_right :
  ∃ comparison diffs,
    ComparisonView.compare sampleLeft sampleRight = Ok comparison ∧
    AnimatedEDIDiff.diff sampleLeft sampleRight = Ok diffs ∧
    ComparisonView.diffType <$> comparison = [Unchanged; Modified; Added] ∧
    AnimatedEDIDiff.type <$> diffs = [Unchanged; Modified; Added].
Proof. eexists _, _. repeat split; reflexivity. Qed.

(** [X*9~] against nothing: one removed line without a right side. *)
Example scenario_removed :
  ComparisonView.compare [ {| tag := "X"; raw := "X*9~"; lineNumber := 1 |} ] []
  = Ok [ {| ComparisonView.leftSegment :=
              Some {| tag := "X"; raw := "X*9~"; lineNumber := 1 |};
            ComparisonView.rightSegment := None;
            ComparisonView.diffType := Removed;
            ComparisonView.leftLineNumber := Some 1%Z;
            ComparisonView.rightLineNumber := None |} ].
Proof. reflexivity. Qed.

(** Equal inputs give unchanged lines only. *)
Example scenario_equal :
  ∃ comparison,
    ComparisonView.compare sampleRight sampleRight = Ok comparison ∧
    ComparisonView.diffType <$> comparison = [Unchanged; Unchanged; Unchanged].
Proof. eexists. split; reflexivity. Qed.

(** The tally of added, removed, modified, unchanged, unchanged. *)
Example scenario_stats :
  ∀ l1 l2 l3 l4 l5,
    ComparisonView.diffType <$> [l1; l2; l3; l4; l5]
    = [Added; Removed; Modified; Unchanged; Unchanged] →
    ComparisonView.diffStats [l1; l2; l3; l4; l5]
    = {| ComparisonView.added := 1; ComparisonView.removed := 1;
         ComparisonView.modified := 1; ComparisonView.unchanged := 2 |}.
Proof.
  intros l1 l2 l3 l4 l5 [= H1 H2 H3 H4 H5].
  unfold ComparisonView.diffStats, forEach. simpl.
  by rewrite H1, H2, H3, H4, H5.
Qed.

(** A search for [b*] keeps the one line whose raw text has it, whatever
    the case. *)
Example scenario_search :
  ComparisonView.diffType
    <$> ComparisonView.filteredComparison sampleComparison "b*" false
  = [Modified] ∧
  ComparisonView.diffType
    <$> ComparisonView.filteredComparison sampleComparison "A" true
  = [] ∧
  ComparisonView.diffType
    <$> ComparisonView.filteredComparison sampleComparison "d" true
  = [Added].
Proof. repeat split; reflexivity. Qed.

(** The highlighted form of [A*1~]. *)
Example scenario_highlight :
  ComparisonView.highlightSegmentHTML {| tag := "A"; raw := "A*1~"; lineNumber := 1 |}
  = "<span class=" +:+ quoted "edi-segment" +:+ ">A</span>"
    +:+ "<span class=" +:+ quoted "edi-separator" +:+ ">*</span>"
    +:+ "<span class=" +:+ quoted "edi-number" +:+ ">1</span>"
    +:+ emptyElementHTML.
Proof. reflexivity. Qed.

(** * Further properties *)

(** ** The positional diff *)

Lemma Forall_fmap_seq {A : Type} (P : A → Prop) (f : nat → A) n :
  Forall P (f <$> seq 0 n) ↔ ∀ i, i < n → P (f i).
Proof.
  rewrite Forall_fmap, Forall_forall. split.
  - intros H i Hi. apply H. apply elem_of_seq. lia.
  - intros H i Hi. apply elem_of_seq in Hi. apply H. lia.
Qed.

Lemma fmap_seq_replicate {A : Type} (g : nat → A) (d : A) k a :
  (∀ i, a ≤ i < a + k → g i = d) → g <$> seq a k = replicate k d.
Proof.
  revert a. induction k as [|k IH]; intros a Hg; simpl; [done|].
  rewrite Hg by lia. f_equal. apply IH. intros i Hi. apply Hg. lia.
Qed.

Lemma lineOf_same (a b : EDISegment) :
  raw a = raw b → ComparisonView.diffType (lineOf (Some a) (Some b)) = Unchanged.
Proof. intros Heq. simpl. rewrite Heq, String.eqb_refl. reflexivity. Qed.

Lemma compare_diffTypes left right :
  ∃ comparison,
    ComparisonView.compare left right = Ok comparison ∧
    ComparisonView.diffType <$> comparison
    = (λ i, ComparisonView.diffType (lineOf (left !! i) (right !! i)))
        <$> seq 0 (Nat.max (length left) (length right)).
Proof.
  eexists. split; [apply compare_closed|]. by rewrite <- list_fmap_compose.
Qed.

(** The comparison shows no difference exactly when the two sequences
    have the same raw texts, position by position (tags and line numbers
    do not count). *)
Theorem compare_unchanged_iff (left right : list EDISegment) :
  ∃ comparison,
    ComparisonView.compare left right = Ok comparison ∧
    (Forall (λ line, ComparisonView.diffType line = Unchanged) comparison
     ↔ raw <$> left = raw <$> right).
Proof.
  eexists. split; [apply compare_closed|].
  rewrite (Forall_fmap_seq _ (λ i, lineOf (left !! i) (right !! i))). split.
  - intros Hall. apply list_eq. intros i. rewrite !list_lookup_fmap.
    destruct (decide (i < Nat.max (length left) (length right))) as [Hi|Hi].
    + pose proof (lineOf_diffType_cases (left !! i) (right !! i)
                    (lookup_absent_both left right i Hi)) as (_ & _ & _ & Hu).
      pose proof (Hall i Hi) as Hone.
      apply Hu in Hone as (a & b & -> & -> & Hraw). simpl. by rewrite Hraw.
    + rewrite !lookup_ge_None_2 by lia. reflexivity.
  - intros Heq i Hi.
    assert (length left = length right) as Hlen
      by (rewrite <- (length_fmap raw left), Heq; apply length_fmap).
    destruct (lookup_lt_is_Some_2 left i) as [a Ha]; [lia|].
    destruct (lookup_lt_is_Some_2 right i) as [b Hb]; [lia|].
    rewrite Ha, Hb. apply lineOf_same.
    apply (f_equal (λ l, l !! i)) in Heq. rewrite !list_lookup_fmap, Ha, Hb in Heq.
    by injection Heq.
Qed.

(** Segments appended to one side are reported as such: when the right
    sequence is the left one followed by more segments, the comparison is
    unchanged lines followed by added lines; when the left one is the
    longer, by removed lines. *)
Theorem compare_appended (common extra : list EDISegment) :
  ∃ added removed,
    ComparisonView.compare common (common ++ extra) = Ok added ∧
    ComparisonView.compare (common ++ extra) common = Ok removed ∧
    ComparisonView.diffType <$> added
    = replicate (length common) Unchanged ++ replicate (length extra) Added ∧
    ComparisonView.diffType <$> removed
    = replicate (length common) Unchanged ++ replicate (length extra) Removed.
Proof.
  destruct (compare_diffTypes common (common ++ extra)) as (added & Ha & Hat).
  destruct (compare_diffTypes (common ++ extra) common) as (removed & Hr & Hrt).
  exists added, removed. split; [done|]. split; [done|].
  rewrite Hat, Hrt, length_app.
  replace (Nat.max (length common) (length common + length extra))
    with (length common + length extra) by lia.
  replace (Nat.max (length common + length extra) (length common))
    with (length common + length extra) by lia.
  rewrite !seq_app, !fmap_app. simpl. split; f_equal.
  - apply fmap_seq_replicate. intros i Hi.
    destruct (lookup_lt_is_Some_2 common i) as [a Ha']; [lia|].
    rewrite lookup_app_l, Ha' by lia. by apply lineOf_same.
  - apply fmap_seq_replicate. intros i Hi.
    destruct (lookup_lt_is_Some_2 extra (i - length common)) as [a Ha']; [lia|].
    rewrite (lookup_ge_None_2 common), lookup_app_r, Ha' by lia. reflexivity.
  - apply fmap_seq_replicate. intros i Hi.
    destruct (lookup_lt_is_Some_2 common i) as [a Ha']; [lia|].
    rewrite lookup_app_l, Ha' by lia. by apply lineOf_same.
  - apply fmap_seq_replicate. intros i Hi.
    destruct (lookup_lt_is_Some_2 extra (i - length common)) as [a Ha']; [lia|].
    rewrite (lookup_ge_None_2 common), lookup_app_r, Ha' by lia. reflexivity.
Qed.

Lemma swapLine_lineOf (l r : option EDISegment) :
  swapLine (lineOf l r) = lineOf r l.
Proof.
  destruct l as [a|], r as [b|]; try reflexivity.
  unfold swapLine, lineOf. simpl. rewrite (String.eqb_sym (raw b) (raw a)).
  by destruct (String.eqb (raw a) (raw b)).
Qed.

(** Exchanging the two inputs exchanges the two sides of every line, and
    with them additions and removals; modified and unchanged lines keep
    their type. *)
Theorem compare_swap (left right : list EDISegment) :
  ∃ comparison,
    ComparisonView.compare left right = Ok comparison ∧
    ComparisonView.compare right left = Ok (swapLine <$> comparison).
Proof.
  eexists. split; [apply compare_closed|].
  rewrite compare_closed, Nat.max_comm, <- list_fmap_compose. f_equal.
  apply list_fmap_ext. intros i x _. simpl. by rewrite swapLine_lineOf.
Qed.

(** The diff is local: replacing the segment at one position of either
    input changes no line at any other position, and no length. *)
Theorem compare_local (left right : list EDISegment) (j i : nat) (x : EDISegment) :
  i ≠ j →
  ∃ before afterLeft afterRight,
    ComparisonView.compare left right = Ok before ∧
    ComparisonView.compare (<[j:=x]> left) right = Ok afterLeft ∧
    ComparisonView.compare left (<[j:=x]> right) = Ok afterRight ∧
    length afterLeft = length before ∧
    length afterRight = length before ∧
    afterLeft !! i = before !! i ∧
    afterRight !! i = before !! i.
Proof.
  intros Hij. eexists _, _, _.
  split; [apply compare_closed|]. split; [apply compare_closed|].
  split; [apply compare_closed|].
  rewrite !length_fmap, !length_seq, !length_insert. split; [done|]. split; [done|].
  rewrite !list_lookup_fmap.
  destruct (seq 0 (Nat.max (length left) (length right)) !! i) as [k|] eqn:Hk;
    [|done].
  apply lookup_seq in Hk as [-> _]. simpl.
  by rewrite !list_lookup_insert_ne.
Qed.

Lemma compare_local_witness :
  ∃ before afterLeft afterRight,
    ComparisonView.compare sampleLeft sampleRight = Ok before ∧
    ComparisonView.compare
      (<[1:={| tag := "B"; raw := "B*3~"; lineNumber := 2 |}]> sampleLeft) sampleRight
    = Ok afterLeft ∧
    ComparisonView.compare sampleLeft
      (<[1:={| tag := "B"; raw := "B*3~"; lineNumber := 2 |}]> sampleRight)
    = Ok afterRight ∧
    length afterLeft = length before ∧
    length afterRight = length before ∧
    afterLeft !! 0 = before !! 0 ∧
    afterRight !! 0 = before !! 0.
Proof. apply (compare_local sampleLeft sampleRight 1 0). lia. Defined.

(** ** The statistics of the two views *)

Lemma forEach_increment_counts comparison stats :
  forEach (λ line stats, ComparisonView.increment (ComparisonView.diffType line) stats)
    comparison stats
  = {| ComparisonView.added := ComparisonView.added stats + countType Added comparison;
       ComparisonView.removed := ComparisonView.removed stats + countType Removed comparison;
       ComparisonView.modified := ComparisonView.modified stats + countType Modified comparison;
       ComparisonView.unchanged :=
         ComparisonView.unchanged stats + countType Unchanged comparison |}.
Proof.
  unfold forEach, countType. revert stats.
  induction comparison as [|line comparison IH]; intros stats; simpl.
  - destruct stats; simpl. f_equal; lia.
  - rewrite IH. destruct (ComparisonView.diffType line); simpl; f_equal; lia.
Qed.

Lemma diffStats_counts comparison :
  ComparisonView.diffStats comparison
  = {| ComparisonView.added := countType Added comparison;
       ComparisonView.removed := countType Removed comparison;
       ComparisonView.modified := countType Modified comparison;
       ComparisonView.unchanged := countType Unchanged comparison |}.
Proof. unfold ComparisonView.diffStats. by rewrite forEach_increment_counts. Qed.

Lemma filter_type_imap d (g : nat → ComparisonView.ComparisonLine → AnimatedEDIDiff.DiffSegment)
    comparison :
  (∀ i line, AnimatedEDIDiff.type (g i line) = ComparisonView.diffType line) →
  length (List.filter (λ x, DiffType_eqb (AnimatedEDIDiff.type x) d) (imap g comparison))
  = countType d comparison.
Proof.
  unfold countType. revert g.
  induction comparison as [|line comparison IH]; intros g Hg; simpl; [done|].
  rewrite Hg. destruct (DiffType_eqb (ComparisonView.diffType line) d); simpl;
    rewrite IH by (intros i l; apply Hg); reflexivity.
Qed.

(** The two views show the same four counts for the same inputs, and each
    count is the number of lines of that diff type. *)
Theorem views_same_stats (left right : list EDISegment) :
  ∃ comparison diffs,
    ComparisonView.compare left right = Ok comparison ∧
    AnimatedEDIDiff.diff left right = Ok diffs ∧
    ComparisonView.diffStats comparison
    = {| ComparisonView.added := AnimatedEDIDiff.added (AnimatedEDIDiff.stats diffs);
         ComparisonView.removed := AnimatedEDIDiff.removed (AnimatedEDIDiff.stats diffs);
         ComparisonView.modified := AnimatedEDIDiff.modified (AnimatedEDIDiff.stats diffs);
         ComparisonView.unchanged :=
           AnimatedEDIDiff.unchanged (AnimatedEDIDiff.stats diffs) |} ∧
    ComparisonView.diffStats comparison
    = {| ComparisonView.added := countType Added comparison;
         ComparisonView.removed := countType Removed comparison;
         ComparisonView.modified := countType Modified comparison;
         ComparisonView.unchanged := countType Unchanged comparison |}.
Proof.
  destruct (diff_flatten left right) as (comparison & diffs & Hc & Hd & ->).
  exists comparison, (imap flatten comparison).
  split; [done|]. split; [done|]. split; [|apply diffStats_counts].
  rewrite diffStats_counts. simpl. by rewrite !filter_type_imap.
Qed.

Lemma flatten_consistent (l r : option EDISegment) i :
  ¬ (l = None ∧ r = None) → consistentDiff (flatten i (lineOf l r)).
Proof.
  intros Hboth. unfold consistentDiff.
  destruct l as [a|], r as [b|]; simpl.
  - destruct (String.eqb_spec (raw a) (raw b)) as [Heq|Hne]; split_and!; eauto.
  - split_and!; eauto.
  - split_and!; eauto.
  - exfalso. by apply Hboth.
Qed.

(** Every [DiffSegment] of the animated view is consistent with its type:
    an addition has only right fields, a removal only left fields, a
    modification both with different contents, an unchanged segment both
    with the same content; tag and content of a side come together. *)
Theorem diff_consistent (left right : list EDISegment) :
  ∃ diffs,
    AnimatedEDIDiff.diff left right = Ok diffs ∧
    Forall consistentDiff diffs.
Proof.
  eexists. split; [apply diff_closed|].
  apply (Forall_fmap_seq _ (λ i, flatten i (lineOf (left !! i) (right !! i)))).
  intros i Hi. apply flatten_consistent. by apply lookup_absent_both.
Qed.

(** ** Missing and equal files *)



Lemma filter_none {A : Type} (f : A → bool) (l : list A) :
  Forall (λ x, f x = false) l → List.filter f l = [].
Proof.
  induction 1 as [|x l Hx _ IH]; simpl; [done|]. by rewrite Hx.
Qed.

Lemma compare_same (segs : list EDISegment) :
  ComparisonView.compare segs segs
  = Ok ((λ s, lineOf (Some s) (Some s)) <$> segs).
Proof.
  rewrite compare_closed, Nat.max_id. f_equal.
  apply list_eq. intros i. rewrite !list_lookup_fmap.
  destruct (decide (i < length segs)) as [Hi|Hi].
  - rewrite lookup_seq_lt by done. simpl.
    destruct (lookup_lt_is_Some_2 segs i Hi) as [a Ha]. by rewrite Ha.
  - rewrite lookup_seq_ge, lookup_ge_None_2 by lia. reflexivity.
Qed.

(** Two files with the same content, a file compared with itself among
    them, show no difference whatever the parser does: every line is
    unchanged, there is one per segment, the counts are zero but for
    [unchanged], and the differences-only view is empty for every search
    string. *)
Theorem same_content_unchanged (parseEDIContent : string → ParsedEDI)
    (leftFile rightFile : EDIFile) (searchTerm : string) :
  content leftFile = content rightFile →
  ∃ comparison,
    ComparisonView.comparisonData parseEDIContent (Some leftFile) (Some rightFile)
    = Ok comparison ∧
    Forall (λ line, ComparisonView.diffType line = Unchanged) comparison ∧
    length comparison = length (segments (parseEDIContent (content leftFile))) ∧
    ComparisonView.diffStats comparison
    = {| ComparisonView.added := 0; ComparisonView.removed := 0;
         ComparisonView.modified := 0;
         ComparisonView.unchanged := length comparison |} ∧
    ComparisonView.filteredComparison comparison searchTerm true = [].
Proof.
  intros Hcontent. unfold ComparisonView.comparisonData. simpl.
  rewrite <- Hcontent, compare_same.
  set (segs := segments (parseEDIContent (content leftFile))).
  eexists. split; [reflexivity|].
  assert (Forall (λ line, ComparisonView.diffType line = Unchanged)
            ((λ s, lineOf (Some s) (Some s)) <$> segs)) as Hall.
  { apply Forall_fmap, Forall_forall. intros s _. by apply lineOf_same. }
  split; [done|]. split; [by rewrite length_fmap|]. split.
  - rewrite diffStats_counts. unfold countType. f_equal.
    + rewrite filter_none; [done|]. eapply Forall_impl; [exact Hall|].
      intros line ->. done.
    + rewrite filter_none; [done|]. eapply Forall_impl; [exact Hall|].
      intros line ->. done.
    + rewrite filter_none; [done|]. eapply Forall_impl; [exact Hall|].
      intros line ->. done.
    + f_equal. rewrite <- (filter_true ((λ s, lineOf (Some s) (Some s)) <$> segs)) at 2.
      apply List.filter_ext_in. intros line Hin.
      apply list_elem_of_In in Hin.
      rewrite Forall_forall in Hall. by rewrite (Hall line Hin).
  - rewrite filteredComparison_filter. apply filter_none.
    eapply Forall_impl; [exact Hall|]. intros line Hline.
    unfold kept. by rewrite Hline.
Qed.

Lemma same_content_unchanged_witness :
  ∃ comparison,
    ComparisonView.comparisonData (constantParser sampleRight)
      (Some sampleFile) (Some sampleFile) = Ok comparison ∧
    Forall (λ line, ComparisonView.diffType line = Unchanged) comparison ∧
    length comparison
    = length (segments (constantParser sampleRight (content sampleFile))) ∧
    ComparisonView.diffStats comparison
    = {| ComparisonView.added := 0; ComparisonView.removed := 0;
         ComparisonView.modified := 0;
         ComparisonView.unchanged := length comparison |} ∧
    ComparisonView.filteredComparison comparison "b" true = [].
Proof.
  apply (same_content_unchanged (constantParser sampleRight) sampleFile sampleFile "b").
  reflexivity.
Defined.

(** ** Composing the filters *)

Lemma filter_idem {A : Type} (f : A → bool) (l : list A) :
  List.filter f (List.filter f l) = List.filter f l.
Proof.
  rewrite filter_filter_and. apply List.filter_ext. intros x. by destruct (f x).
Qed.


Lemma kept_split searchTerm showOnlyDifferences line :
  kept searchTerm showOnlyDifferences line
  = kept EmptyString showOnlyDifferences line && kept searchTerm false line.
Proof. unfold kept. simpl. by rewrite andb_true_r. Qed.

(** The two filters are independent of each other and of their order:
    without toggle and search string nothing is filtered; filtering twice is
    filtering once; applying the toggle and the search one after the other,
    in either order, is applying both; and no filter adds lines. *)
Theorem filters_compose (comparison : list ComparisonView.ComparisonLine)
    (searchTerm : string) (showOnlyDifferences : bool) :
  ComparisonView.filteredComparison comparison EmptyString false = comparison ∧
  ComparisonView.filteredComparison
    (ComparisonView.filteredComparison comparison searchTerm showOnlyDifferences)
    searchTerm showOnlyDifferences
  = ComparisonView.filteredComparison comparison searchTerm showOnlyDifferences ∧
  ComparisonView.filteredComparison
    (ComparisonView.filteredComparison comparison EmptyString showOnlyDifferences)
    searchTerm false
  = ComparisonView.filteredComparison comparison searchTerm showOnlyDifferences ∧
  ComparisonView.filteredComparison
    (ComparisonView.filteredComparison comparison searchTerm false)
    EmptyString showOnlyDifferences
  = ComparisonView.filteredComparison comparison searchTerm showOnlyDifferences ∧
  length (ComparisonView.filteredComparison comparison searchTerm showOnlyDifferences)
  ≤ length comparison.
Proof.
  split; [reflexivity|]. rewrite !filteredComparison_filter. split_and!.
  - apply filter_idem.
  - rewrite filter_filter_and. apply List.filter_ext. intros line.
    symmetry. apply kept_split.
  - rewrite filter_filter_and. apply List.filter_ext. intros line.
    rewrite andb_comm. symmetry. apply kept_split.
  - apply sublist_length, filter_is_sublist.
Qed.

Lemma count_not_unchanged (comparison : list ComparisonView.ComparisonLine) :
  length (List.filter
            (λ line, negb (DiffType_eqb (ComparisonView.diffType line) Unchanged))
            comparison)
  = countType Added comparison + countType Removed comparison
    + countType Modified comparison.
Proof.
  unfold countType. induction comparison as [|line comparison IH]; simpl; [done|].
  destruct (ComparisonView.diffType line); simpl; lia.
Qed.

(** With the toggle set and no search string, the number of lines listed
    is the sum of the added, removed and modified counts of the header:
    the unchanged lines are the ones left out. *)
Theorem differences_only_count (comparison : list ComparisonView.ComparisonLine) :
  length (ComparisonView.filteredComparison comparison EmptyString true)
  = ComparisonView.added (ComparisonView.diffStats comparison)
    + ComparisonView.removed (ComparisonView.diffStats comparison)
    + ComparisonView.modified (ComparisonView.diffStats comparison) ∧
  length (ComparisonView.filteredComparison comparison EmptyString true)
  + ComparisonView.unchanged (ComparisonView.diffStats comparison)
  = length comparison.
Proof.
  pose proof (diffStats_sum comparison) as Hsum. unfold sumOfCounts in Hsum.
  rewrite diffStats_counts in *. simpl in *.
  unfold ComparisonView.filteredComparison. simpl.
  rewrite count_not_unchanged. lia.
Qed.

(** ** Searching *)

Lemma toLowerChar_idem c : toLowerChar (toLowerChar c) = toLowerChar c.
Proof. destruct c as [[] [] [] [] [] [] [] []]; reflexivity. Qed.

Lemma toLowerCase_idem s : toLowerCase (toLowerCase s) = toLowerCase s.
Proof.
  induction s as [|c s IH]; simpl; [done|]. by rewrite toLowerChar_idem, IH.
Qed.


Lemma toLowerCase_truthy s s' :
  toLowerCase s = toLowerCase s' → truthyString s = truthyString s'.
Proof. destruct s, s'; simpl; intros H; try done; discriminate. Qed.

Lemma kept_lower s s' showOnlyDifferences line :
  toLowerCase s = toLowerCase s' →
  kept s showOnlyDifferences line = kept s' showOnlyDifferences line.
Proof.
  intros Hlow. unfold kept, ComparisonView.matchesSearch.
  by rewrite Hlow, (toLowerCase_truthy s s' Hlow).
Qed.

(** The case of the search string does not matter: two search strings
    that differ in case only select the same lines, and so does the search
    string put in lower case. *)
Theorem search_ignores_case (comparison : list ComparisonView.ComparisonLine)
    (s s' : string) (showOnlyDifferences : bool) :
  toLowerCase s = toLowerCase s' →
  ComparisonView.filteredComparison comparison s showOnlyDifferences
  = ComparisonView.filteredComparison comparison s' showOnlyDifferences ∧
  ComparisonView.filteredComparison comparison (toLowerCase s) showOnlyDifferences
  = ComparisonView.filteredComparison comparison s showOnlyDifferences.
Proof.
  intros Hlow. rewrite !filteredComparison_filter. split.
  - apply List.filter_ext. intros line. by apply kept_lower.
  - apply List.filter_ext. intros line. apply kept_lower, toLowerCase_idem.
Qed.

Lemma search_ignores_case_witness :
  ComparisonView.filteredComparison sampleComparison "B*3" false
  = ComparisonView.filteredComparison sampleComparison "b*3" false ∧
  ComparisonView.filteredComparison sampleComparison (toLowerCase "B*3") false
  = ComparisonView.filteredComparison sampleComparison "B*3" false.
Proof. apply (search_ignores_case sampleComparison "B*3" "b*3" false). reflexivity. Defined.



(** ** Digits and foreign characters *)

Lemma allChars_false p before c after :
  p c = false → allChars p (before +:+ String c after) = false.
Proof.
  intros Hc. rewrite allChars_append. simpl. rewrite Hc. apply andb_false_r.
Qed.

Lemma allChars_impl (p q : ascii → bool) s :
  (∀ c, p c = true → q c = true) → allChars p s = true → allChars q s = true.
Proof.
  intros Hpq. induction s as [|c s IH]; simpl; [done|].
  rewrite !andb_true_iff. intros [Hc Hs]. auto.
Qed.

Lemma digit_upperOrDigit c : digit c = true → upperOrDigit c = true.
Proof. unfold upperOrDigit, digit. intros ->. apply orb_true_r. Qed.

Lemma numberRule_chars element :
  numberRule element → allChars (λ c, digit c || dot c) element = true.
Proof.
  assert (∀ s, allChars digit s = true → allChars (λ c, digit c || dot c) s = true)
    as Hd by (intros s; apply allChars_impl; intros c ->; done).
  intros (whole & [_ Hw] & [-> | (fraction & [_ Hf] & ->)]); [auto|].
  rewrite !allChars_append, (Hd whole Hw), (Hd fraction Hf). reflexivity.
Qed.

(** An element of digits only is a date when it has eight or six of them
    and a number otherwise; it is never a qualifier, however short. *)
Theorem digits_date_or_number (element : string) :
  element ≠ EmptyString →
  allChars digit element = true →
  ComparisonView.getElementClass element
  = if (String.length element =? 8)%nat || (String.length element =? 6)%nat
    then "edi-date" else "edi-number".
Proof.
  intros Hne Hdigits. unfold ComparisonView.getElementClass.
  destruct (test (Times 8 (Class digit)) element
            || test (Times 6 (Class digit)) element) eqn:Hd.
  - apply (iff_true_holds _ _ (test_date element)) in Hd as [_ [Hlen|Hlen]];
      rewrite Hlen; reflexivity.
  - apply (iff_false_fails _ _ (test_date element)) in Hd.
    assert (String.length element ≠ 8 ∧ String.length element ≠ 6) as [H8 H6].
    { split; intros Hlen; apply Hd; split; auto. }
    apply Nat.eqb_neq in H8, H6. rewrite H8, H6. simpl.
    assert (numberRule element) as Hn by (exists element; split; [split|]; auto).
    apply test_number in Hn. by rewrite Hn.
Qed.

Lemma digits_date_or_number_witness :
  ComparisonView.getElementClass "30"
  = if (String.length "30" =? 8)%nat || (String.length "30" =? 6)%nat
    then "edi-date" else "edi-number".
Proof. apply (digits_date_or_number "30"); [discriminate | reflexivity]. Defined.

(** An element with a character that is no digit, no upper-case letter
    and no [.] (a lower-case letter, a space, a sign) has the class
    [edi-element], whatever else it holds. *)
Theorem foreign_character_generic (before after : string) (c : ascii) :
  upperOrDigit c = false →
  dot c = false →
  ComparisonView.getElementClass (before +:+ String c after) = "edi-element".
Proof.
  intros Hupper Hdot.
  assert (digit c = false) as Hdigit.
  { destruct (digit c) eqn:Hd; [|done].
    apply digit_upperOrDigit in Hd. congruence. }
  unfold ComparisonView.getElementClass.
  destruct (test (Times 8 (Class digit)) (before +:+ String c after)
            || test (Times 6 (Class digit)) (before +:+ String c after)) eqn:Hd.
  { apply (iff_true_holds _ _ (test_date _)) in Hd as [Hall _].
    by rewrite allChars_false in Hall. }
  destruct (test (Seq (Plus (Class digit))
              (Opt (Seq (Class dot) (Plus (Class digit)))))
              (before +:+ String c after)) eqn:Hn.
  { apply (iff_true_holds _ _ (test_number _)) in Hn.
    apply numberRule_chars in Hn. rewrite allChars_false in Hn; [done|].
    by rewrite Hdigit, Hdot. }
  destruct ((String.length (before +:+ String c after) <=? 3)%nat
            && test (Plus (Class upperOrDigit)) (before +:+ String c after)) eqn:Hq.
  { apply (iff_true_holds _ _ (test_qualifier _)) in Hq as [_ Hall].
    by rewrite allChars_false in Hall. }
  reflexivity.
Qed.

Lemma foreign_character_generic_witness :
  ComparisonView.getElementClass ("Acme" +:+ String " " "Health") = "edi-element".
Proof. apply (foreign_character_generic "Acme" "Health" " "); reflexivity. Defined.

(** ** Splitting into elements *)




Lemma split_plain sep s : countChars sep s = 0 → split sep s = [s].
Proof.
  induction s as [|c s IH]; simpl; [done|].
  destruct (sep c); [done|]. intros Hs. by rewrite IH.
Qed.


(** A raw text without [*] and [~], the empty one among them, is rendered
    as one span of class [edi-segment] that holds the text as it is:
    nothing is classified and nothing is escaped. *)
Theorem highlight_plain (segment : EDISegment) :
  countChars starOrTilde (raw segment) = 0 →
  ComparisonView.highlightSegmentHTML segment
  = "<span class=" +:+ quoted "edi-segment" +:+ ">" +:+ raw segment +:+ "</span>".
Proof.
  intros Hplain. unfold ComparisonView.highlightSegmentHTML.
  rewrite (split_plain _ _ Hplain). unfold join. simpl.
  apply append_empty_r.
Qed.

Lemma highlight_plain_witness :
  ComparisonView.highlightSegmentHTML
    {| tag := "<b>"; raw := "<b>ISA</b>"; lineNumber := 1 |}
  = "<span class=" +:+ quoted "edi-segment" +:+ ">" +:+ "<b>ISA</b>" +:+ "</span>".
Proof.
  apply (highlight_plain {| tag := "<b>"; raw := "<b>ISA</b>"; lineNumber := 1 |}).
  reflexivity.
Defined.

(** ** What the two views show for a side *)

Lemma leftCell_lineOf l r :
  ComparisonView.leftCell (lineOf l r) = ComparisonView.NoContent ↔ l = None.
Proof. destruct l; simpl; split; done. Qed.

Lemma rightCell_lineOf l r :
  ComparisonView.rightCell (lineOf l r) = ComparisonView.NoContent ↔ r = None.
Proof. destruct r; simpl; split; done. Qed.

Lemma leftSide_flatten i l r :
  AnimatedEDIDiff.leftSide (flatten i (lineOf l r)) = AnimatedEDIDiff.NotPresent
  ↔ l = None ∨ ∃ s, l = Some s ∧ raw s = EmptyString.
Proof.
  unfold AnimatedEDIDiff.leftSide. simpl. destruct l as [a|]; simpl.
  - destruct (raw a) as [|c0 rest] eqn:Hraw; simpl; split; try done.
    + intros _. right. by exists a.
    + intros [|(seg & [= <-] & Hseg)]; [done|]. congruence.
  - split; auto.
Qed.

Lemma rightSide_flatten i l r :
  AnimatedEDIDiff.rightSide (flatten i (lineOf l r)) = AnimatedEDIDiff.NotPresent
  ↔ r = None ∨ ∃ s, r = Some s ∧ raw s = EmptyString.
Proof.
  unfold AnimatedEDIDiff.rightSide. simpl. destruct r as [b|]; simpl.
  - destruct (raw b) as [|c0 rest] eqn:Hraw; simpl; split; try done.
    + intros _. right. by exists b.
    + intros [|(seg & [= <-] & Hseg)]; [done|]. congruence.
  - split; auto.
Qed.

(** The dual pane shows its placeholder for a side exactly when the
    segment is absent; the animated view shows [(not present)] also for a
    segment that is present with an empty raw text. *)
Theorem views_on_absent_side (left right : list EDISegment) (i : nat) :
  i < Nat.max (length left) (length right) →
  ∃ comparison line diffs d,
    ComparisonView.compare left right = Ok comparison ∧
    comparison !! i = Some line ∧
    AnimatedEDIDiff.diff left right = Ok diffs ∧
    diffs !! i = Some d ∧
    (ComparisonView.leftCell line = ComparisonView.NoContent ↔ left !! i = None) ∧
    (ComparisonView.rightCell line = ComparisonView.NoContent ↔ right !! i = None) ∧
    (AnimatedEDIDiff.leftSide d = AnimatedEDIDiff.NotPresent
       ↔ left !! i = None ∨ ∃ s, left !! i = Some s ∧ raw s = EmptyString) ∧
    (AnimatedEDIDiff.rightSide d = AnimatedEDIDiff.NotPresent
       ↔ right !! i = None ∨ ∃ s, right !! i = Some s ∧ raw s = EmptyString).
Proof.
  intros Hi.
  exists ((λ i, lineOf (left !! i) (right !! i))
            <$> seq 0 (Nat.max (length left) (length right))),
         (lineOf (left !! i) (right !! i)),
         ((λ i, flatten i (lineOf (left !! i) (right !! i)))
            <$> seq 0 (Nat.max (length left) (length right))),
         (flatten i (lineOf (left !! i) (right !! i))).
  split; [apply compare_closed|].
  split; [by apply (lookup_fmap_seq (λ i, lineOf (left !! i) (right !! i)))|].
  split; [apply diff_closed|].
  split; [by apply (lookup_fmap_seq (λ i, flatten i (lineOf (left !! i) (right !! i))))|].
  split; [apply leftCell_lineOf|]. split; [apply rightCell_lineOf|].
  split; [apply leftSide_flatten | apply rightSide_flatten].
Qed.

Lemma views_on_absent_side_witness :
  ∃ comparison line diffs d,
    ComparisonView.compare
      [ {| tag := "N1"; raw := EmptyString; lineNumber := 1 |} ] sampleRight
    = Ok comparison ∧
    comparison !! 0 = Some line ∧
    AnimatedEDIDiff.diff
      [ {| tag := "N1"; raw := EmptyString; lineNumber := 1 |} ] sampleRight
    = Ok diffs ∧
    diffs !! 0 = Some d ∧
    (ComparisonView.leftCell line = ComparisonView.NoContent
       ↔ [ {| tag := "N1"; raw := EmptyString; lineNumber := 1 |} ] !! 0 = None) ∧
    (ComparisonView.rightCell line = ComparisonView.NoContent
       ↔ sampleRight !! 0 = None) ∧
    (AnimatedEDIDiff.leftSide d = AnimatedEDIDiff.NotPresent
       ↔ [ {| tag := "N1"; raw := EmptyString; lineNumber := 1 |} ] !! 0 = None
         ∨ ∃ s, [ {| tag := "N1"; raw := EmptyString; lineNumber := 1 |} ] !! 0 = Some s
                ∧ raw s = EmptyString) ∧
    (AnimatedEDIDiff.rightSide d = AnimatedEDIDiff.NotPresent
       ↔ sampleRight !! 0 = None
         ∨ ∃ s, sampleRight !! 0 = Some s ∧ raw s = EmptyString).
Proof.
  apply (views_on_absent_side
           [ {| tag := "N1"; raw := EmptyString; lineNumber := 1 |} ] sampleRight 0).
  simpl. lia.
Defined.

(** ** Uploading, selecting and removing files *)

Lemma hasId_Some fileId f : Index.hasId fileId (Some f) = true ↔ id f = fileId.
Proof. unfold Index.hasId. simpl. apply String.eqb_eq. Qed.

Lemma remove_selection fileId st :
  Index.selectedFiles (Index.handleFileRemove fileId st)
  = {| Index.left :=
         if Index.hasId fileId (Index.left (Index.selectedFiles st))
         then None else Index.left (Index.selectedFiles st);
       Index.right :=
         if Index.hasId fileId (Index.right (Index.selectedFiles st))
         then None else Index.right (Index.selectedFiles st) |}.
Proof.
  unfold Index.handleFileRemove. simpl.
  destruct (Index.selectedFiles st) as [l r]. simpl.
  destruct (Index.hasId fileId l); simpl; by destruct (Index.hasId fileId r).
Qed.

Lemma remove_files_elem fileId st f :
  f ∈ Index.files (Index.handleFileRemove fileId st)
  ↔ f ∈ Index.files st ∧ id f ≠ fileId.
Proof.
  unfold Index.handleFileRemove. simpl.
  rewrite !list_elem_of_In, List.filter_In, negb_true_iff, String.eqb_neq. done.
Qed.

Lemma kept_selection fileId (o : option EDIFile) f :
  (if Index.hasId fileId o then None else o) = Some f ↔ o = Some f ∧ id f ≠ fileId.
Proof.
  destruct o as [g|]; [|split; [done | by intros [? _]]].
  destruct (Index.hasId fileId (Some g)) eqn:Hid.
  - apply hasId_Some in Hid. split; [done|]. intros [[= ->] Hne]. done.
  - split; [|by intros [? _]]. intros [= ->]. split; [done|].
    intros Heq. apply hasId_Some in Heq. congruence.
Qed.

Lemma remove_idGone fileId st : idGone fileId (Index.handleFileRemove fileId st).
Proof.
  unfold idGone. rewrite remove_selection. simpl. split_and!.
  - apply Forall_forall. intros f Hf. by apply remove_files_elem in Hf as [_ Hne].
  - intros f Hf. by apply kept_selection in Hf as [_ Hne].
  - intros f Hf. by apply kept_selection in Hf as [_ Hne].
Qed.

Lemma filter_all {A : Type} (f : A → bool) (l : list A) :
  Forall (λ x, f x = true) l → List.filter f l = l.
Proof.
  induction 1 as [|x l Hx _ IH]; simpl; [done|]. by rewrite Hx, IH.
Qed.

Lemma remove_noop fileId st :
  idGone fileId st → Index.handleFileRemove fileId st = st.
Proof.
  intros (Hfiles & Hleft & Hright).
  assert (Index.selectedFiles (Index.handleFileRemove fileId st) = Index.selectedFiles st)
    as Hsel.
  { rewrite remove_selection. destruct (Index.selectedFiles st) as [l r]. simpl in *.
    f_equal.
    - destruct l as [f|]; [|done]. destruct (Index.hasId fileId (Some f)) eqn:Hid; [|done].
      apply hasId_Some in Hid. by specialize (Hleft f eq_refl).
    - destruct r as [f|]; [|done]. destruct (Index.hasId fileId (Some f)) eqn:Hid; [|done].
      apply hasId_Some in Hid. by specialize (Hright f eq_refl). }
  assert (Index.files (Index.handleFileRemove fileId st) = Index.files st) as Hf.
  { unfold Index.handleFileRemove. simpl. apply filter_all.
    eapply Forall_impl; [exact Hfiles|]. intros f Hne. simpl.
    by apply negb_true_iff, String.eqb_neq. }
  destruct st as [fs sel]. unfold Index.handleFileRemove in *. simpl in *.
  by rewrite Hf, Hsel.
Qed.

(** After a file is removed, no uploaded file has its id (every copy is
    gone), and neither selection has it: a removed file is never left in
    the comparison. *)
Theorem remove_clears_id (fileId : string) (st : Index.State) :
  idGone fileId (Index.handleFileRemove fileId st) ∧
  Forall (λ f, Index.hasId fileId (Some f) = false)
    (Index.files (Index.handleFileRemove fileId st)) ∧
  Index.hasId fileId (Index.left (Index.selectedFiles (Index.handleFileRemove fileId st)))
  = false ∧
  Index.hasId fileId (Index.right (Index.selectedFiles (Index.handleFileRemove fileId st)))
  = false.
Proof.
  pose proof (remove_idGone fileId st) as Hgone.
  split; [done|]. destruct Hgone as (Hfiles & Hleft & Hright). split_and!.
  - eapply Forall_impl; [exact Hfiles|]. intros f Hne. simpl in Hne.
    destruct (Index.hasId fileId (Some f)) eqn:Hid; [|done].
    by apply hasId_Some in Hid.
  - destruct (Index.left _) as [f|] eqn:Hl; [|done].
    destruct (Index.hasId fileId (Some f)) eqn:Hid; [|done].
    apply hasId_Some in Hid. by specialize (Hleft f eq_refl).
  - destruct (Index.right _) as [f|] eqn:Hr; [|done].
    destruct (Index.hasId fileId (Some f)) eqn:Hid; [|done].
    apply hasId_Some in Hid. by specialize (Hright f eq_refl).
Qed.

(** Removing a file leaves all files with another id as they were: they
    stay uploaded, in their order, and stay selected on the side where they
    were; and no file is uploaded or selected by a removal. *)
Theorem remove_keeps_others (fileId : string) (st : Index.State) (f : EDIFile) :
  id f ≠ fileId →
  (f ∈ Index.files (Index.handleFileRemove fileId st) ↔ f ∈ Index.files st) ∧
  (Index.left (Index.selectedFiles (Index.handleFileRemove fileId st)) = Some f
     ↔ Index.left (Index.selectedFiles st) = Some f) ∧
  (Index.right (Index.selectedFiles (Index.handleFileRemove fileId st)) = Some f
     ↔ Index.right (Index.selectedFiles st) = Some f) ∧
  sublist (Index.files (Index.handleFileRemove fileId st)) (Index.files st).
Proof.
  intros Hne. rewrite remove_files_elem, remove_selection. simpl.
  rewrite !kept_selection. split_and!; try tauto.
  unfold Index.handleFileRemove. simpl. apply filter_is_sublist.
Qed.

Lemma remove_keeps_others_witness :
  (otherFile ∈ Index.files
     (Index.handleFileRemove "f1"
        {| Index.files := [sampleFile; otherFile];
           Index.selectedFiles :=
             {| Index.left := Some sampleFile; Index.right := Some otherFile |} |})
   ↔ otherFile ∈ [sampleFile; otherFile]) ∧
  (Index.left (Index.selectedFiles
     (Index.handleFileRemove "f1"
        {| Index.files := [sampleFile; otherFile];
           Index.selectedFiles :=
             {| Index.left := Some sampleFile; Index.right := Some otherFile |} |}))
   = Some otherFile ↔ Some sampleFile = Some otherFile) ∧
  (Index.right (Index.selectedFiles
     (Index.handleFileRemove "f1"
        {| Index.files := [sampleFile; otherFile];
           Index.selectedFiles :=
             {| Index.left := Some sampleFile; Index.right := Some otherFile |} |}))
   = Some otherFile ↔ Some otherFile = Some otherFile) ∧
  sublist
    (Index.files
       (Index.handleFileRemove "f1"
          {| Index.files := [sampleFile; otherFile];
             Index.selectedFiles :=
               {| Index.left := Some sampleFile; Index.right := Some otherFile |} |}))
    [sampleFile; otherFile].
Proof.
  apply (remove_keeps_others "f1"
           {| Index.files := [sampleFile; otherFile];
              Index.selectedFiles :=
                {| Index.left := Some sampleFile; Index.right := Some otherFile |} |}
           otherFile).
  discriminate.
Defined.

(** Removing an id that no uploaded or selected file has changes
    nothing; hence removing the same id twice is removing it once. *)
Theorem remove_absent_id (fileId : string) (st : Index.State) :
  idGone fileId st →
  Index.handleFileRemove fileId st = st ∧
  ∀ st', Index.handleFileRemove fileId (Index.handleFileRemove fileId st')
         = Index.handleFileRemove fileId st'.
Proof.
  intros Hgone. split; [by apply remove_noop|].
  intros st'. apply remove_noop, remove_idGone.
Qed.

Lemma remove_absent_id_witness :
  Index.handleFileRemove "f9"
    {| Index.files := [sampleFile; otherFile];
       Index.selectedFiles := {| Index.left := Some sampleFile; Index.right := None |} |}
  = {| Index.files := [sampleFile; otherFile];
       Index.selectedFiles := {| Index.left := Some sampleFile; Index.right := None |} |} ∧
  ∀ st', Index.handleFileRemove "f9" (Index.handleFileRemove "f9" st')
         = Index.handleFileRemove "f9" st'.
Proof.
  apply (remove_absent_id "f9"
           {| Index.files := [sampleFile; otherFile];
              Index.selectedFiles :=
                {| Index.left := Some sampleFile; Index.right := None |} |}).
  unfold idGone. simpl. split_and!.
  - repeat constructor; discriminate.
  - intros f [= <-]. discriminate.
  - intros f Hf. discriminate.
Defined.

Lemma handle_keeps_selection st e :
  selectionInFiles st → offered st e → selectionInFiles (Index.handle st e).
Proof.
  intros Hinv Hoffered f.
  destruct e as [newFiles|file position|fileId]; cbn [Index.handle].
  - simpl. intros Hsel. apply elem_of_app. left. by apply Hinv.
  - simpl in *. destruct position; simpl; intros [Hsel|Hsel].
    + by injection Hsel as <-.
    + apply Hinv. by right.
    + apply Hinv. by left.
    + by injection Hsel as <-.
  - rewrite remove_selection. cbn [Index.left Index.right].
    rewrite !kept_selection.
    intros [[Hsel Hne]|[Hsel Hne]]; apply remove_files_elem; split; try done;
      apply Hinv; auto.
Qed.

(** Whatever is uploaded, selected from the uploaded files and removed,
    in any order: each selected file is one of the uploaded files, so that
    once the last file is removed nothing is selected. *)
Theorem selection_always_uploaded (st : Index.State) :
  reachable st →
  selectionInFiles st ∧
  (Index.files st = [] →
   Index.selectedFiles st = {| Index.left := None; Index.right := None |}).
Proof.
  intros Hreach.
  assert (selectionInFiles st) as Hinv.
  { induction Hreach as [|st e _ IH Hoffered].
    - intros f [Hsel|Hsel]; discriminate.
    - by apply handle_keeps_selection. }
  split; [done|]. intros Hempty.
  destruct (Index.selectedFiles st) as [l r] eqn:Hsel. f_equal.
  - destruct l as [f|]; [|done].
    assert (f ∈ Index.files st) as Hf by (apply Hinv; rewrite Hsel; by left).
    rewrite Hempty in Hf. by apply elem_of_nil in Hf.
  - destruct r as [f|]; [|done].
    assert (f ∈ Index.files st) as Hf by (apply Hinv; rewrite Hsel; by right).
    rewrite Hempty in Hf. by apply elem_of_nil in Hf.
Qed.

Lemma selection_always_uploaded_witness :
  selectionInFiles
    (Index.handle
       (Index.handle
          (Index.handle Index.initialState (Index.Upload [sampleFile; otherFile]))
          (Index.Select sampleFile Index.Left))
       (Index.Remove "f1")) ∧
  (Index.files
     (Index.handle
        (Index.handle
           (Index.handle Index.initialState (Index.Upload [sampleFile; otherFile]))
           (Index.Select sampleFile Index.Left))
        (Index.Remove "f1")) = [] →
   Index.selectedFiles
     (Index.handle
        (Index.handle
           (Index.handle Index.initialState (Index.Upload [sampleFile; otherFile]))
           (Index.Select sampleFile Index.Left))
        (Index.Remove "f1"))
   = {| Index.left := None; Index.right := None |}).
Proof.
  apply (selection_always_uploaded
           (Index.handle
              (Index.handle
                 (Index.handle Index.initialState (Index.Upload [sampleFile; otherFile]))
                 (Index.Select sampleFile Index.Left))
              (Index.Remove "f1"))).
  apply reachable_step; [|exact I].
  apply reachable_step; [|simpl; apply list_elem_of_In; simpl; auto].
  apply reachable_step; [|exact I].
  apply reachable_initial.
Defined.
